(** * Chat assistant with session memory: workflow nodes, routing and schemas

    A shallow embedding of [schemas.py], [utils.py], [nodes.py] and
    [graph.py], and of the exception handlers of [app.py].  Python values are modelled as follows.

    - [int] is [Z] (unbounded).  [str] is [string]; the lines of the
      test-data file, which [str.strip] reads character by character, are
      lists of code points.
    - A [dict] whose iteration order is observable is an association list;
      [d.get(k, default)] is [Py.dict_get].
    - A key of the state dict that the source reads with [state.get(...)]
      is an [option] field: [None] stands for the key being absent, in
      which case [state[...]] raises [KeyError].
    - Exceptions are values of [Py.exn]; a computation is a pair of the
      events it performed (generation calls and sleeps) and its outcome.
    - The generation capability and the tokenizer are external: the first
      is an oracle giving the outcome of each call, the second a class
      whose encoder may raise, as the library's does on text that spells a
      special token.
    - The state dict is written in place: a write made inside a [try]
      stays when a later statement of the block raises.
    - What a model object inherits from the validation library, and what
      the JSON parser does with a text, are parameters too. *)

From Stdlib Require Import ZArith Lia Ascii String.
From stdpp Require Import base option list strings pretty gmap.

Local Open Scope Z_scope.

(** ** Python runtime *)
Module Py.

Inductive exn_class :=
| ValueError | ValidationError | KeyError | AttributeError | RuntimeError.

(** [exn_msg e] is [str(e)]. *)
Record exn := Exn { exn_type : exn_class; exn_msg : string }.

Inductive result (A : Type) :=
| Ok (a : A)
| Raise (e : exn).
Arguments Ok {A} a.
Arguments Raise {A} e.

(** Observable effects of a node: a call of the generation capability
    ([structured_llm.invoke] or [llm.invoke]) and [time.sleep], whose
    argument is kept in milliseconds ([0.5 * (attempt + 1)] seconds is
    [500 * (attempt + 1)] ms).  Console logging is not recorded. *)
Inductive event :=
| EvInvoke
| EvSleep (ms : nat).

Definition M (A : Type) : Type := list event * result A.

Definition ret {A} (a : A) : M A := ([], Ok a).
Definition raise {A} (e : exn) : M A := ([], Raise e).
Definition emit (ev : event) : M unit := ([ev], Ok tt).
Definition lift {A} (r : result A) : M A := ([], r).

Definition bind {A B} (m : M A) (f : A → M B) : M B :=
  match m with
  | (t, Ok a) => let '(t', r) := f a in (t ++ t', r)
  | (t, Raise e) => (t, Raise e)
  end.

(** [try: m  except Exception as e: h e] *)
Definition try_except {A} (m : M A) (h : exn → M A) : M A :=
  match m with
  | (t, Raise e) => let '(t', r) := h e in (t ++ t', r)
  | (t, Ok a) => (t, Ok a)
  end.

Notation "'let*' x ':=' m 'in' k" := (bind m (λ x, k))
  (at level 10, x name, m at level 100, k at level 200).

Definition NL : string := String "010"%char EmptyString.

(** ["sep".join(parts)] *)
Definition join (sep : string) (parts : list string) : string :=
  String.concat sep parts.

(** [l[i:]] for an integer [i] of either sign. *)
Definition slice_from {A} (i : Z) (l : list A) : list A :=
  let n := Z.of_nat (length l) in
  let start := if i <? 0 then Z.max 0 (n + i) else Z.min i n in
  drop (Z.to_nat start) l.

(** [d.get(k, dflt)] on an insertion-ordered dict. *)
Fixpoint dict_get {V} (d : list (string * V)) (k : string) (dflt : V) : V :=
  match d with
  | [] => dflt
  | (k', v) :: d' => if String.eqb k' k then v else dict_get d' k dflt
  end.

(** Truthiness of an [Optional[list]]: [None] and [[]] are falsy. *)
Definition truthy {A} (v : option (list A)) : bool :=
  match v with
  | Some (_ :: _) => true
  | _ => false
  end.

Definition is_lower (c : ascii) : bool :=
  let n := nat_of_ascii c in ((97 <=? n) && (n <=? 122))%nat.
Definition is_upper (c : ascii) : bool :=
  let n := nat_of_ascii c in ((65 <=? n) && (n <=? 90))%nat.
Definition to_upper (c : ascii) : ascii :=
  if is_lower c then ascii_of_nat (nat_of_ascii c - 32) else c.
Definition to_lower (c : ascii) : ascii :=
  if is_upper c then ascii_of_nat (nat_of_ascii c + 32) else c.

(** [s.title()] on ASCII text. *)
Fixpoint title_from (previous_is_cased : bool) (s : string) : string :=
  match s with
  | EmptyString => EmptyString
  | String c s' =>
      if is_lower c then
        String (if previous_is_cased then c else to_upper c) (title_from true s')
      else if is_upper c then
        String (if previous_is_cased then to_lower c else c) (title_from true s')
      else String c (title_from false s')
  end.
Definition title (s : string) : string := title_from false s.

(** [s.replace("_", " ")] *)
Fixpoint replace_underscore (s : string) : string :=
  match s with
  | EmptyString => EmptyString
  | String c s' =>
      String (if Ascii.eqb c "_"%char then " "%char else c) (replace_underscore s')
  end.

End Py.
Import Py.

(** ** schemas.py *)
Module Schemas.

Record SessionSummary := {
  user_profile : list (string * string);
  key_facts : list string;
  decisions : list string;
  open_questions : list string;
  todos : list string;
  message_range_summarized : list (string * Z)
}.

(** [SessionSummary()]: every field takes its default factory. *)
Definition SessionSummary_default : SessionSummary := {|
  user_profile := [];
  key_facts := [];
  decisions := [];
  open_questions := [];
  todos := [];
  message_range_summarized := [("from", 0); ("to", 0)]
|}.

Definition set_message_range_summarized
    (r : list (string * Z)) (s : SessionSummary) : SessionSummary := {|
  user_profile := user_profile s;
  key_facts := key_facts s;
  decisions := decisions s;
  open_questions := open_questions s;
  todos := todos s;
  message_range_summarized := r
|}.

Record QueryAnalysis := {
  original_query : string;
  is_ambiguous : bool;
  rewritten_query : option string;
  needed_context_from_memory : option (list string);
  final_augmented_context : option string;
  clarifying_questions : option (list string)
}.

(** Keyword arguments handed to the [QueryAnalysis] constructor, by the
    source or by the structured-output parser.  [None] for one of the two
    required fields means the field is missing; for the optional fields
    it means missing or [None] (both leave the field [None]). *)
Record QueryAnalysisArgs := {
  arg_original_query : option string;
  arg_is_ambiguous : option bool;
  arg_rewritten_query : option string;
  arg_needed_context_from_memory : option (list string);
  arg_final_augmented_context : option string;
  arg_clarifying_questions : option (list string)
}.

Definition valid_fields : gset string :=
  {[ "user_profile"; "key_facts"; "decisions"; "open_questions"; "todos" ]}.

Definition validate_memory_fields (v : option (list string)) : option (list string) :=
  match v with
  | None => None
  | Some v =>
      let invalid_fields := filter (λ f, f ∉ valid_fields) v in
      match invalid_fields with
      | _ :: _ => Some (filter (λ f, f ∈ valid_fields) v)
      | [] => Some v
      end
  end.

Definition set_clarifying_questions
    (q : option (list string)) (a : QueryAnalysis) : QueryAnalysis := {|
  original_query := original_query a;
  is_ambiguous := is_ambiguous a;
  rewritten_query := rewritten_query a;
  needed_context_from_memory := needed_context_from_memory a;
  final_augmented_context := final_augmented_context a;
  clarifying_questions := q
|}.

Definition set_original_query (q : string) (a : QueryAnalysis) : QueryAnalysis := {|
  original_query := q;
  is_ambiguous := is_ambiguous a;
  rewritten_query := rewritten_query a;
  needed_context_from_memory := needed_context_from_memory a;
  final_augmented_context := final_augmented_context a;
  clarifying_questions := clarifying_questions a
|}.

Definition set_final_augmented_context
    (c : option string) (a : QueryAnalysis) : QueryAnalysis := {|
  original_query := original_query a;
  is_ambiguous := is_ambiguous a;
  rewritten_query := rewritten_query a;
  needed_context_from_memory := needed_context_from_memory a;
  final_augmented_context := c;
  clarifying_questions := clarifying_questions a
|}.

Definition validate_ambiguity_logic (self : QueryAnalysis) : QueryAnalysis :=
  if negb (is_ambiguous self) && truthy (clarifying_questions self)
  then set_clarifying_questions None self
  else self.

(** Names of the required fields that [args] leaves out. *)
Definition missing_fields (args : QueryAnalysisArgs) : list string :=
  (if arg_original_query args is Some _ then [] else ["original_query"]) ++
  (if arg_is_ambiguous args is Some _ then [] else ["is_ambiguous"]).

(** The constructor [QueryAnalysis(...)]: [original_query] and [is_ambiguous] have no
    default, so leaving one out raises [ValidationError]; the field
    validator runs on the supplied [needed_context_from_memory], then the
    model validator on the assembled object.  The message of the error is
    abbreviated to the names of the missing fields. *)
Definition QueryAnalysis_new (args : QueryAnalysisArgs) : result QueryAnalysis :=
  match arg_original_query args, arg_is_ambiguous args with
  | Some q, Some b =>
      Ok (validate_ambiguity_logic {|
        original_query := q;
        is_ambiguous := b;
        rewritten_query := arg_rewritten_query args;
        needed_context_from_memory :=
          validate_memory_fields (arg_needed_context_from_memory args);
        final_augmented_context := arg_final_augmented_context args;
        clarifying_questions := arg_clarifying_questions args
      |})
  | _, _ =>
      Raise (Exn ValidationError
               ("Field required: " +:+ join ", " (missing_fields args)))
  end.

(** A message is a dict [{"role": ..., "content": ...}] or a LangChain
    message object with attributes [type] and [content]. *)
Inductive Message :=
| DictMsg (role content : string)
| LcMsg (msg_type content : string).

Record GraphState := {
  messages : list Message;
  summary : SessionSummary;
  analysis : option QueryAnalysis;
  current_token_count : option Z;
  clarification_count : option Z
}.

Definition set_messages (m : list Message) (s : GraphState) : GraphState := {|
  messages := m;
  summary := summary s;
  analysis := analysis s;
  current_token_count := current_token_count s;
  clarification_count := clarification_count s
|}.

Definition set_summary (x : SessionSummary) (s : GraphState) : GraphState := {|
  messages := messages s;
  summary := x;
  analysis := analysis s;
  current_token_count := current_token_count s;
  clarification_count := clarification_count s
|}.

Definition set_analysis (a : QueryAnalysis) (s : GraphState) : GraphState := {|
  messages := messages s;
  summary := summary s;
  analysis := Some a;
  current_token_count := current_token_count s;
  clarification_count := clarification_count s
|}.

Definition set_current_token_count (n : Z) (s : GraphState) : GraphState := {|
  messages := messages s;
  summary := summary s;
  analysis := analysis s;
  current_token_count := Some n;
  clarification_count := clarification_count s
|}.

Definition set_clarification_count (n : Z) (s : GraphState) : GraphState := {|
  messages := messages s;
  summary := summary s;
  analysis := analysis s;
  current_token_count := current_token_count s;
  clarification_count := Some n
|}.

End Schemas.
Import Schemas.

(** ** utils.py *)
Module Utils.

(** [ENCODER.encode]: the tokenizer, an external capability.  With the
    default arguments the library raises [ValueError] on text that spells
    one of its special tokens; such a call is [Raise]. *)
Class Tokenizer := encode : string → result (list N).

Definition count_tokens `{Tokenizer} (text : string) : result Z :=
  match text with
  | EmptyString => Ok 0
  | _ =>
      match encode text with
      | Ok tokens => Ok (Z.of_nat (length tokens))
      | Raise e => Raise e
      end
  end.

(** Values of the attributes of a [SessionSummary] object, rendered the
    way an f-string renders them: a dict with its items, a list with its
    items, and anything else with its text. *)
Inductive field_value :=
| VDict (items : list (string * string))
| VList (items : list string)
| VOther (text : string).

(** What a [SessionSummary] object has besides its six declared fields:
    the attributes of its class and of the base class of the models
    ([model_config], [model_dump], [__dict__], ...), whose code is the
    validation library's.  [inherited summary name] is [None] when the
    object has no attribute [name], so that [hasattr] is false, and its
    value otherwise. *)
Class BaseModel := inherited : SessionSummary → string → option field_value.

Section WithBaseModel.
Context {object : BaseModel}.

(** [hasattr(summary, field)] followed by [getattr(summary, field)]; the
    integers of [message_range_summarized] are rendered in decimal. *)
Definition getattr_summary (summary : SessionSummary) (field : string)
  : option field_value :=
  if String.eqb field "user_profile" then Some (VDict (user_profile summary))
  else if String.eqb field "key_facts" then Some (VList (key_facts summary))
  else if String.eqb field "decisions" then Some (VList (decisions summary))
  else if String.eqb field "open_questions" then Some (VList (open_questions summary))
  else if String.eqb field "todos" then Some (VList (todos summary))
  else if String.eqb field "message_range_summarized" then
    Some (VDict (map (λ kv, (kv.1, pretty kv.2)) (message_range_summarized summary)))
  else inherited summary field.

(** What one iteration of the loop over [fields] appends to [sections]. *)
Definition field_sections (summary : SessionSummary) (field : string) : list string :=
  match getattr_summary summary field with
  | None => []
  | Some value =>
      let field_name := title (replace_underscore field) in
      match value with
      | VDict [] => []
      | VDict items =>
          (NL +:+ field_name +:+ ":")
            :: map (λ kv, "  - " +:+ kv.1 +:+ ": " +:+ kv.2) items
      | VList [] => []
      | VList items =>
          (NL +:+ field_name +:+ ":") :: map (λ item, "  - " +:+ item) items
      | VOther value => [NL +:+ field_name +:+ ": " +:+ value]
      end
  end.

Definition format_summary_for_prompt
    (summary : SessionSummary) (fields : list string) : string :=
  match fields with
  | [] => ""
  | _ =>
      let sections :=
        foldl (λ sections field, sections ++ field_sections summary field)
              ["=== SESSION MEMORY ==="] fields in
      if (1 <? length sections)%nat then join NL sections else ""
  end.

End WithBaseModel.

Definition messages_to_text (messages : list Message) : string :=
  join NL
    (map (λ msg,
            match msg with
            | DictMsg role content => role +:+ ": " +:+ content
            | LcMsg msg_type content => msg_type +:+ ": " +:+ content
            end) messages).

End Utils.
Import Utils.

(** ** nodes.py *)
Module Nodes.

Definition TOKEN_THRESHOLD : Z := 800.

(** The process environment, as far as the nodes read it. *)
Record Env := { GROQ_API_KEY : option string }.

(** Raises [ValueError] when the credential is unset or empty; the client
    it returns otherwise is represented by the oracle of the caller. *)
Definition get_groq_client (env : Env) : M unit :=
  match GROQ_API_KEY env with
  | None | Some EmptyString =>
      raise (Exn ValueError "GROQ_API_KEY environment variable not set")
  | Some _ => ret tt
  end.

Definition get_message_content (message : Message) : string :=
  match message with
  | DictMsg _ content => content
  | LcMsg _ content => content
  end.

(** ['user' if isinstance(msg, dict) and msg.get('role') == 'user'
     else getattr(msg, 'type', 'unknown')] *)
Definition speaker (msg : Message) : string :=
  match msg with
  | DictMsg role _ => if String.eqb role "user" then "user" else "unknown"
  | LcMsg msg_type _ => msg_type
  end.

Definition conversation_lines (msgs : list Message) : string :=
  join NL (map (λ msg, speaker msg +:+ ": " +:+ get_message_content msg) msgs).

(** One call of the generation capability whose outcome is [o]. *)
Definition invoke {A} (o : result A) : M A :=
  let* _ := emit EvInvoke in lift o.

(** [llm.with_structured_output(QueryAnalysis).invoke(...)]: the reply of
    the capability is parsed into a [QueryAnalysis] through its
    constructor; a reply that does not fit the schema raises. *)
Definition invoke_analysis (o : result QueryAnalysisArgs) : M QueryAnalysis :=
  let* args := invoke o in lift (QueryAnalysis_new args).

(** The loop [for attempt in range(max_retries)] with its inner
    [try]/[except], which both retrying nodes spell out identically.
    [body attempt] is the inner [try] block, which ends in [return];
    [None] is control leaving the loop once the range is used up. *)
Fixpoint retry_loop {A} (max_retries : nat) (body : nat → M A)
    (attempts : list nat) : M (option A) :=
  match attempts with
  | [] => ret None
  | attempt :: rest =>
      try_except
        (let* a := body attempt in ret (Some a))
        (λ last_error,
           if (attempt <? max_retries - 1)%nat then
             let* _ := emit (EvSleep (500 * (attempt + 1))) in
             retry_loop max_retries body rest
           else raise last_error)
  end.

Definition state_analysis (state : GraphState) : M QueryAnalysis :=
  match analysis state with
  | Some a => ret a
  | None => raise (Exn KeyError "'analysis'")
  end.

Section WithTokenizer.
Context `{Tokenizer} {object : BaseModel}.

(** [llm k] is the outcome of the [k]-th structured call (from 0).  The
    prompts only feed that call and are left out. *)
Definition analyze_query_node (env : Env) (llm : nat → result QueryAnalysisArgs)
    (state : GraphState) : M GraphState :=
  let messages := messages state in
  let summary := summary state in
  match messages with
  | [] =>
      let* a := lift (QueryAnalysis_new {|
                  arg_original_query := None;
                  arg_is_ambiguous := Some false;
                  arg_rewritten_query := None;
                  arg_needed_context_from_memory := Some [];
                  arg_final_augmented_context := None;
                  arg_clarifying_questions := None |}) in
      ret (set_analysis a state)
  | _ =>
      let latest_message := default "" (get_message_content <$> last messages) in
      let recent_context :=
        if (5 <? length messages)%nat then slice_from (-5) messages else messages in
      let context_text := conversation_lines recent_context in
      try_except
        (let* _ := get_groq_client env in
         let max_retries := 3%nat in
         let* r :=
           retry_loop max_retries
             (λ attempt,
                let* response := invoke_analysis (llm attempt) in
                let response := set_original_query latest_message response in
                let response :=
                  if truthy (needed_context_from_memory response) then
                    let memory_context :=
                      format_summary_for_prompt summary
                        (default [] (needed_context_from_memory response)) in
                    set_final_augmented_context
                      (Some (memory_context +:+ NL +:+ NL +:+
                             "Recent conversation:" +:+ NL +:+ context_text))
                      response
                  else response in
                ret (set_analysis response state))
             (seq 0 max_retries) in
         ret (default state r))
        (λ e,
           let* a := lift (QueryAnalysis_new {|
                       arg_original_query := Some latest_message;
                       arg_is_ambiguous := Some false;
                       arg_rewritten_query := None;
                       arg_needed_context_from_memory := Some [];
                       arg_final_augmented_context := None;
                       arg_clarifying_questions := None |}) in
           ret (set_analysis a state))
  end.

(** The inner [try] block of the Summarizer at one attempt, on the state
    dict as the earlier attempts left it.  [messages] is the local variable
    bound before the loop.  The writes to ["summary"] and ["messages"]
    happen before the token count, so they stay when [count_tokens]
    raises; [Ok tt] is the [return state] that ends the block. *)
Definition summarize_try (llm : nat → result SessionSummary)
    (messages : list Message) (attempt : nat) (state : GraphState)
  : list event * (GraphState * result unit) :=
  match llm attempt with
  | Raise e => ([EvInvoke], (state, Raise e))
  | Ok response =>
      let response :=
        set_message_range_summarized
          [("from", 0); ("to", Z.of_nat (length messages))] response in
      let state := set_summary response state in
      let state := set_messages (slice_from (-5) messages) state in
      match count_tokens (messages_to_text (Schemas.messages state)) with
      | Ok n => ([EvInvoke], (set_current_token_count n state, Ok tt))
      | Raise e => ([EvInvoke], (state, Raise e))
      end
  end.

(** The loop [for attempt in range(max_retries)] of the Summarizer with its
    inner [except]: [Ok true] is a [return] from inside the loop, [Ok false]
    the range used up, [Raise] the [raise last_error] of the last attempt.
    The state dict is threaded through the attempts. *)
Fixpoint summarize_loop (max_retries : nat) (llm : nat → result SessionSummary)
    (messages : list Message) (attempts : list nat) (state : GraphState)
  : list event * (GraphState * result bool) :=
  match attempts with
  | [] => ([], (state, Ok false))
  | attempt :: rest =>
      match summarize_try llm messages attempt state with
      | (t, (state, Ok _)) => (t, (state, Ok true))
      | (t, (state, Raise last_error)) =>
          if (attempt <? max_retries - 1)%nat then
            let '(t', out) := summarize_loop max_retries llm messages rest state in
            (t ++ EvSleep (500 * (attempt + 1)) :: t', out)
          else (t, (state, Raise last_error))
      end
  end.

(** Whether the loop returns, runs out or raises into the outer [except]
    (which only logs), the node ends in [return state], on the state dict
    as written so far. *)
Definition summarize_node (env : Env) (llm : nat → result SessionSummary)
    (state : GraphState) : M GraphState :=
  let messages := messages state in
  let current_summary := summary state in
  let last_summarized_index :=
    dict_get (message_range_summarized current_summary) "to" 0 in
  let messages_to_summarize := slice_from last_summarized_index messages in
  match messages_to_summarize with
  | [] => ret state
  | _ =>
      match get_groq_client env with
      | (t, Raise e) => (t, Ok state)
      | (t, Ok _) =>
          let max_retries := 3%nat in
          let '(t', (state, _)) :=
            summarize_loop max_retries llm messages (seq 0 max_retries) state in
          (t ++ t', Ok state)
      end
  end.

(** [llm] is the outcome of the single free-form call.  The prompt (memory
    context, recent history, latest query) only feeds that call and is left
    out.  The returned dict carries the one new message under ["messages"].
    The token count is taken inside the [try], before the first write. *)
Definition answer_node (env : Env) (llm : result string)
    (state : GraphState) : M GraphState :=
  let messages := messages state in
  let* analysis := state_analysis state in
  match messages with
  | [] => ret state
  | _ =>
      try_except
        (let* _ := get_groq_client env in
         let* content := invoke llm in
         let new_message := DictMsg "assistant" content in
         let* n :=
           lift (count_tokens (messages_to_text (Schemas.messages state)
                               +:+ NL +:+ "assistant: " +:+ content)) in
         let state := set_current_token_count n state in
         let state := set_clarification_count 0 state in
         ret (set_messages [new_message] state))
        (λ e,
           let error_msg :=
             DictMsg "assistant"
               ("I apologize, but I encountered an error: " +:+ exn_msg e) in
           ret (set_messages [error_msg] state))
  end.

End WithTokenizer.

Definition clarify_node (state : GraphState) : M GraphState :=
  let* analysis := state_analysis state in
  let clarification_count := default 0 (clarification_count state) in
  let state := set_clarification_count (clarification_count + 1) state in
  let clarification :=
    match clarifying_questions analysis with
    | None | Some [] =>
        "I'm not sure I understand. Could you please provide more details?"
    | Some [q] => q
    | Some qs =>
        "I need some clarification:" +:+ NL +:+ NL +:+
        join NL (map (λ q, "- " +:+ q) qs)
    end in
  let new_message := DictMsg "assistant" clarification in
  let state :=
    set_clarification_count
      (default 0 (Schemas.clarification_count state) + 1) state in
  ret (set_messages [new_message] state).

End Nodes.
Import Nodes.

(** ** graph.py *)
Module Graph.

Definition MAX_CLARIFICATION_ATTEMPTS : Z := 1.

Definition should_clarify (state : GraphState) : string :=
  let analysis := analysis state in
  let clarification_count := default 0 (clarification_count state) in
  if MAX_CLARIFICATION_ATTEMPTS <=? clarification_count then "answer"
  else if (if analysis is Some a then is_ambiguous a else false) then "clarify"
  else "answer".

Definition should_summarize (state : GraphState) : string :=
  let current_count := default 0 (current_token_count state) in
  if TOKEN_THRESHOLD <? current_count then "summarize" else "end".

Definition initialize_state : result GraphState :=
  match QueryAnalysis_new {|
          arg_original_query := Some "";
          arg_is_ambiguous := Some false;
          arg_rewritten_query := None;
          arg_needed_context_from_memory := None;
          arg_final_augmented_context := None;
          arg_clarifying_questions := None |} with
  | Ok a => Ok {|
      messages := [];
      summary := SessionSummary_default;
      analysis := Some a;
      current_token_count := Some 0;
      clarification_count := Some 0 |}
  | Raise e => Raise e
  end.

End Graph.
Import Graph.

(** ** Notions used in the statements *)

(** The counter as the nodes read it: [state.get("clarification_count", 0)]. *)
Definition counter (state : GraphState) : Z :=
  default 0 (clarification_count state).

(** The index up to which the summary covers the history, as the
    Summarizer reads it: [message_range_summarized.get("to", 0)]. *)
Definition summarized_to (state : GraphState) : Z :=
  dict_get (message_range_summarized (summary state)) "to" 0.

(** The text the Clarifier sends for the questions of an analysis. *)
Definition clarification_text (a : QueryAnalysis) : string :=
  match clarifying_questions a with
  | None | Some [] =>
      "I'm not sure I understand. Could you please provide more details?"
  | Some [q] => q
  | Some qs =>
      "I need some clarification:" +:+ NL +:+ NL +:+
      join NL (map (λ q, "- " +:+ q) qs)
  end.

(** An attempt of the Analyzer fails when the call raises (transport) or
    its reply does not pass the schema. *)
Definition attempt_fails (o : result QueryAnalysisArgs) : Prop :=
  match o with
  | Raise _ => True
  | Ok args => ∃ e, QueryAnalysis_new args = Raise e
  end.

(** Events of a retry loop whose first [k] attempts, numbered from
    [start], fail and which stops at the next one. *)
Fixpoint backoff_trace (start k : nat) : list event :=
  match k with
  | O => [EvInvoke]
  | S k' => EvInvoke :: EvSleep (500 * (start + 1)) :: backoff_trace (S start) k'
  end.

Definition calls (tr : list event) : nat :=
  length (omap (λ ev, match ev with EvInvoke => Some ev | EvSleep _ => None end) tr).

Definition sleeps (tr : list event) : list nat :=
  omap (λ ev, match ev with EvSleep ms => Some ms | EvInvoke => None end) tr.

(** The analysis the Analyzer degrades to. *)
Definition fallback_analysis (latest_message : string) : QueryAnalysis := {|
  original_query := latest_message;
  is_ambiguous := false;
  rewritten_query := None;
  needed_context_from_memory := Some [];
  final_augmented_context := None;
  clarifying_questions := None
|}.

Definition latest_text (state : GraphState) : string :=
  default "" (get_message_content <$> last (messages state)).

(** The analysis the Analyzer stores when the reply of the capability
    validates to [response]. *)
Definition stored_analysis {object : BaseModel}
    (state : GraphState) (response : QueryAnalysis) : QueryAnalysis :=
  let recent_context :=
    if (5 <? length (messages state))%nat
    then slice_from (-5) (messages state) else messages state in
  let response := set_original_query (latest_text state) response in
  if truthy (needed_context_from_memory response) then
    set_final_augmented_context
      (Some (format_summary_for_prompt (summary state)
               (default [] (needed_context_from_memory response))
             +:+ NL +:+ NL +:+ "Recent conversation:" +:+ NL +:+
             conversation_lines recent_context))
      response
  else response.

(** The state dict after a Summarizer attempt that the capability answered
    with [response]: summary and messages are written, and the token count
    too when the tokenizer accepts the text of the kept messages. *)
Definition summarized `{Tokenizer} (response : SessionSummary) (state : GraphState)
  : GraphState := {|
  messages := slice_from (-5) (messages state);
  summary :=
    set_message_range_summarized
      [("from", 0); ("to", Z.of_nat (length (messages state)))] response;
  analysis := analysis state;
  current_token_count :=
    match count_tokens (messages_to_text (slice_from (-5) (messages state))) with
    | Ok n => Some n
    | Raise _ => current_token_count state
    end;
  clarification_count := clarification_count state
|}.

(** Modelled from the spec: the reducer the orchestrator applies to the
    ["messages"] entry a step returns ([add_messages], which [schemas.py]
    names on the key; its code is the orchestration library's).  The spec
    has it append: "new messages appended in order, no deduplication beyond
    identity".  [same] decides the identity of two messages. *)
Definition add_messages (same : Message → Message → bool)
    (left right : list Message) : list Message :=
  left ++ List.filter (λ m, negb (existsb (same m) left)) right.

(** A session as the Summarizer sees it: its own executions, and steps of
    the rest of the workflow, none of which writes the summary. *)
Inductive session_step `{Tokenizer} : GraphState → GraphState → Prop :=
| step_summarize env llm state tr state' :
    summarize_node env llm state = (tr, Ok state') →
    session_step state state'
| step_elsewhere state state' :
    summary state' = summary state →
    session_step state state'.

(** ** Sample data *)
Module Sample.

Definition byte_tokenizer : Tokenizer :=
  λ s, Ok (map N_of_ascii (list_ascii_of_string s)).

(** An object whose only attribute besides the fields is [model_config]. *)
Definition base_model : BaseModel :=
  λ _ name,
    if String.eqb name "model_config"
    then Some (VDict [("json_schema_extra", "{'example': {}}")])
    else None.

Definition with_key : Env := {| GROQ_API_KEY := Some "gsk_test" |}.
Definition without_key : Env := {| GROQ_API_KEY := None |}.

Definition vague : QueryAnalysis := {|
  original_query := "What about that?";
  is_ambiguous := true;
  rewritten_query := None;
  needed_context_from_memory := None;
  final_augmented_context := None;
  clarifying_questions := Some ["What does that refer to?"]
|}.

Definition hello : GraphState := {|
  messages := [DictMsg "user" "Hello"];
  summary := SessionSummary_default;
  analysis := Some (fallback_analysis "");
  current_token_count := Some 0;
  clarification_count := Some 0
|}.

Definition asked : GraphState := {|
  messages := [DictMsg "user" "What about that?"];
  summary := SessionSummary_default;
  analysis := Some vague;
  current_token_count := Some 0;
  clarification_count := Some 0
|}.

Definition seven : list Message :=
  [ DictMsg "user" "m1"; LcMsg "ai" "m2"; DictMsg "user" "m3";
    LcMsg "ai" "m4"; DictMsg "user" "m5"; LcMsg "ai" "m6";
    DictMsg "user" "m7" ].

Definition long_chat : GraphState := {|
  messages := seven;
  summary := SessionSummary_default;
  analysis := Some (fallback_analysis "m7");
  current_token_count := Some 900;
  clarification_count := Some 0
|}.

Definition reply : SessionSummary := {|
  user_profile := [("name", "Al")];
  key_facts := ["likes tea"];
  decisions := [];
  open_questions := [];
  todos := [];
  message_range_summarized := [("from", 3); ("to", 2)]
|}.

Definition names : QueryAnalysisArgs := {|
  arg_original_query := Some "x";
  arg_is_ambiguous := Some false;
  arg_rewritten_query := None;
  arg_needed_context_from_memory := Some ["key_facts"; "password"; "todos"];
  arg_final_augmented_context := None;
  arg_clarifying_questions := None
|}.

Definition down : exn := Exn RuntimeError "connection reset".

(** The capability raises on the first call and answers the second. *)
Definition second_try : nat → result SessionSummary :=
  λ k, if (k =? 1)%nat then Ok reply else Raise down.

End Sample.

(** ** utils.py: loading test conversations *)
Module TestData.

(** A line of the file, which is read as UTF-8: a [str] by its code
    points. *)
Definition text : Type := list N.

(** The code points of a literal within ASCII. *)
Definition code_points (s : string) : text :=
  map N_of_ascii (list_ascii_of_string s).

(** The outcome of [json.loads], an external capability: the value, a
    [json.JSONDecodeError], or an exception of another class (a
    [RecursionError] on deeply nested text), which the loop does not
    catch. *)
Inductive parse_result (J : Type) :=
| Parsed (case : J)
| JSONDecodeError
| Uncaught (e : exn).
Arguments Parsed {J} case.
Arguments JSONDecodeError {J}.
Arguments Uncaught {J} e.

Class JsonParser (J : Type) := json_loads : text → parse_result J.

(** The characters [str.strip()] removes, those [str.isspace] holds of:
    U+0009 to U+000D, U+001C to U+0020, U+0085, U+00A0, U+1680, U+2000 to
    U+200A, U+2028, U+2029, U+202F, U+205F and U+3000. *)
Definition is_space (c : N) : bool :=
  (((9 <=? c) && (c <=? 13)) || ((28 <=? c) && (c <=? 32))
   || (c =? 133) || (c =? 160) || (c =? 5760)
   || ((8192 <=? c) && (c <=? 8202))
   || (c =? 8232) || (c =? 8233) || (c =? 8239) || (c =? 8287)
   || (c =? 12288))%N.

Fixpoint lstrip (s : text) : text :=
  match s with
  | [] => []
  | c :: s' => if is_space c then lstrip s' else s
  end.

Definition rstrip (s : text) : text := rev (lstrip (rev s)).

Definition strip (s : text) : text := rstrip (lstrip s).

(** The loop [for line_num, line in enumerate(f, 1)] over the lines of the
    opened file, from line number [line_num] on.  It yields the numbers of
    the lines it warns about, in file order, and the test cases it has
    appended when it ends; an exception that is not a
    [json.JSONDecodeError] leaves the loop at its line, after the warnings
    of the lines before. *)
Fixpoint load_lines {J} `{JsonParser J} (line_num : nat) (lines : list text)
  : list nat * result (list J) :=
  match lines with
  | [] => ([], Ok [])
  | line :: rest =>
      let line := strip line in
      match line with
      | [] => load_lines (S line_num) rest
      | _ =>
          match json_loads line with
          | Parsed case =>
              let '(warnings, test_cases) := load_lines (S line_num) rest in
              (warnings,
               match test_cases with
               | Ok test_cases => Ok (case :: test_cases)
               | Raise e => Raise e
               end)
          | JSONDecodeError =>
              let '(warnings, test_cases) := load_lines (S line_num) rest in
              (line_num :: warnings, test_cases)
          | Uncaught e => ([], Raise e)
          end
      end
  end.

(** [load_test_data] once the file is open; [lines] is what iterating the
    file yields. *)
Definition load_test_data {J} `{JsonParser J} (lines : list text)
  : list nat * result (list J) :=
  load_lines 1 lines.

(** The 1-based numbers of the lines that are not blank and that the
    parser rejects, in file order. *)
Definition rejected_lines {J} `{JsonParser J} (lines : list text) : list nat :=
  omap (λ numbered : nat * text,
          match strip numbered.2 with
          | [] => None
          | line =>
              match json_loads line with
              | JSONDecodeError => Some numbered.1
              | Parsed _ | Uncaught _ => None
              end
          end)
       (zip (seq 1 (length lines)) lines).

(** The values of the lines that are not blank and that the parser
    accepts, in file order. *)
Definition parsed_lines {J} `{JsonParser J} (lines : list text) : list J :=
  omap (λ line,
          match strip line with
          | [] => None
          | line =>
              match json_loads line with
              | Parsed case => Some case
              | JSONDecodeError | Uncaught _ => None
              end
          end)
       lines.

(** A parser for sample data: it accepts the text of the empty object and
    rejects any other. *)
Definition empty_object_parser : JsonParser unit :=
  λ line,
    match line with
    | [123%N; 125%N] => Parsed tt
    | _ => JSONDecodeError
    end.

End TestData.
Import TestData.

(** ** app.py: what [invoke_graph] reports when the workflow raises *)
Module App.

Inductive notice :=
| ApiKeyError
| ConfigurationError (e : string)
| RateLimitReached
| AuthenticationError
| ConnectionError
| OtherError (e : string).

(** [s.lower()] on ASCII text. *)
Fixpoint lower (s : string) : string :=
  match s with
  | EmptyString => EmptyString
  | String c s' => String (to_lower c) (lower s')
  end.

Fixpoint starts_with (p s : string) : bool :=
  match p, s with
  | EmptyString, _ => true
  | String a p', String b s' => Ascii.eqb a b && starts_with p' s'
  | String _ _, EmptyString => false
  end.

(** [needle in s] *)
Fixpoint contains (needle s : string) : bool :=
  starts_with needle s
  || match s with
     | EmptyString => false
     | String _ s' => contains needle s'
     end.

(** [isinstance(e, ValueError)]: the validation error of the schema
    library derives from [ValueError]. *)
Definition is_ValueError (e : exn) : bool :=
  match exn_type e with
  | ValueError | ValidationError => true
  | KeyError | AttributeError | RuntimeError => false
  end.

(** The two [except] clauses of [invoke_graph], as the notice shown for the
    exception [e] that left [graph.invoke]. *)
Definition invoke_graph_except (e : exn) : notice :=
  if is_ValueError e then
    if contains "GROQ_API_KEY" (exn_msg e) then ApiKeyError
    else ConfigurationError (exn_msg e)
  else
    let error_str := lower (exn_msg e) in
    if contains "rate_limit" error_str || contains "429" error_str then
      RateLimitReached
    else if contains "401" error_str || contains "403" error_str
            || contains "unauthorized" error_str then
      AuthenticationError
    else if contains "connection" error_str || contains "network" error_str
            || contains "timeout" error_str then
      ConnectionError
    else OtherError (exn_msg e).

End App.
Import App.

(** ** graph.py: the wiring of [create_graph] *)
Module Workflow.

Inductive node := analyze_query | clarify | answer | summarize.

Definition entry_point : node := analyze_query.

(** The mapping given to [add_conditional_edges]; [None] is [END]. *)
Definition clarify_edges : list (string * option node) :=
  [("clarify", Some clarify); ("answer", Some answer)].
Definition summarize_edges : list (string * option node) :=
  [("summarize", Some summarize); ("end", None)].

Fixpoint edge {V} (mapping : list (string * V)) (label : string) : option V :=
  match mapping with
  | [] => None
  | (l, v) :: rest => if String.eqb l label then Some v else edge rest label
  end.

(** The node that follows [n] when [n] leaves the state [state]: [Some None]
    is [END], and [None] a router label that the mapping lacks. *)
Definition next (n : node) (state : GraphState) : option (option node) :=
  match n with
  | analyze_query => edge clarify_edges (should_clarify state)
  | clarify => Some None
  | answer => edge summarize_edges (should_summarize state)
  | summarize => Some None
  end.

(** The nodes one invocation runs from [n] on, at most [fuel] edges far,
    when node [m] leaves the state [after m]. *)
Fixpoint walk (fuel : nat) (after : node → GraphState) (n : node) : list node :=
  n :: match fuel with
       | O => []
       | S fuel' =>
           match next n (after n) with
           | Some (Some n') => walk fuel' after n'
           | Some None | None => []
           end
       end.

End Workflow.
Import Workflow.

(** A tokenizer that refuses text spelling the end-of-text token, and a
    session whose user typed it. *)
Module Special.




End Special.

(** The slice the Summarizer archives:
    [messages[last_summarized_index:]]. *)
Definition messages_to_summarize (state : GraphState) : list Message :=
  slice_from (summarized_to state) (messages state).

(** The token count as the router reads it:
    [state.get("current_token_count", 0)]. *)
Definition token_count (state : GraphState) : Z :=
  default 0 (current_token_count state).

(** A dict message as the prompts of the nodes label it. *)
Definition relabel (msg : Message) : Message :=
  match msg with
  | DictMsg role content =>
      DictMsg (if String.eqb role "user" then "user" else "unknown") content
  | LcMsg msg_type content => LcMsg msg_type content
  end.

(** Steps of a session that follows the routing of the graph: the Clarifier
    and the Answerer run on a state only when [should_clarify] sends it to
    them, and the orchestrator may replace the messages by any merge. *)
Inductive routed_step `{Tokenizer} {object : BaseModel}
  : GraphState → GraphState → Prop :=
| routed_analyze env llm state tr state' :
    analyze_query_node env llm state = (tr, Ok state') →
    routed_step state state'
| routed_clarify state tr state' :
    should_clarify state = "clarify" →
    clarify_node state = (tr, Ok state') →
    routed_step state state'
| routed_answer env llm state tr state' :
    should_clarify state = "answer" →
    answer_node env llm state = (tr, Ok state') →
    routed_step state state'
| routed_summarize env llm state tr state' :
    summarize_node env llm state = (tr, Ok state') →
    routed_step state state'
| routed_merge state msgs :
    routed_step state (set_messages msgs state).

(** ** Facts about the Python runtime model *)

Lemma M_bind_ret {A B} (a : A) (f : A → M B) : bind (ret a) f = f a.
Proof. unfold bind, ret. destruct (f a) as [t r]. reflexivity. Qed.

Lemma slice_from_covered {A} (i : Z) (l : list A) :
  Z.of_nat (length l) ≤ i → slice_from i l = [].
Proof.
  intros Hle. unfold slice_from.
  destruct (Z.ltb_spec i 0) as [Hneg | _]; [lia |].
  rewrite Z.min_r by lia. rewrite Nat2Z.id. apply drop_all.
Qed.

Lemma slice_from_beyond {A} (i : Z) (l : list A) :
  0 ≤ i → i < Z.of_nat (length l) → slice_from i l ≠ [].
Proof.
  intros Hpos Hlt. unfold slice_from.
  destruct (Z.ltb_spec i 0) as [Hneg | _]; [lia |].
  rewrite Z.min_l by lia. intros Hnil.
  apply (f_equal length) in Hnil. rewrite length_drop in Hnil. simpl in Hnil. lia.
Qed.

Lemma slice_from_nonempty_lt {A} (i : Z) (l : list A) :
  slice_from i l ≠ [] → i < Z.of_nat (length l).
Proof.
  intros Hne. destruct (Z.lt_ge_cases i (Z.of_nat (length l))) as [Hlt | Hge]; [done |].
  exfalso. apply Hne. by apply slice_from_covered.
Qed.

Lemma slice_from_last5 {A} (l : list A) :
  slice_from (-5) l = drop (length l - 5) l.
Proof.
  unfold slice_from. simpl. f_equal. lia.
Qed.



(** ** schemas.py: validation of [QueryAnalysis] *)

Lemma valid_fields_names (f : string) :
  f ∈ valid_fields ↔
  f = "user_profile" ∨ f = "key_facts" ∨ f = "decisions" ∨
  f = "open_questions" ∨ f = "todos".
Proof.
  unfold valid_fields. rewrite !elem_of_union, !elem_of_singleton. tauto.
Qed.

Lemma filter_valid_id (v : list string) :
  filter (λ f, f ∉ valid_fields) v = [] → filter (λ f, f ∈ valid_fields) v = v.
Proof.
  induction v as [| f v IH]; [done |].
  rewrite !filter_cons. destruct (decide (f ∈ valid_fields)) as [Hin | Hout].
  - rewrite decide_False by auto. intros Hnil. by rewrite IH.
  - rewrite decide_True by done. discriminate.
Qed.

Lemma validate_memory_fields_filter (v : list string) :
  validate_memory_fields (Some v) = Some (filter (λ f, f ∈ valid_fields) v).
Proof.
  unfold validate_memory_fields.
  destruct (filter (λ f, f ∉ valid_fields) v) eqn:Hinv; [| done].
  by rewrite filter_valid_id.
Qed.

Lemma validate_ambiguity_logic_needed (a : QueryAnalysis) :
  needed_context_from_memory (validate_ambiguity_logic a) = needed_context_from_memory a.
Proof. unfold validate_ambiguity_logic. by destruct (_ && _). Qed.

(** C9.  Whenever the two required fields are supplied, construction of a
    [QueryAnalysis] succeeds whatever names are supplied for
    [needed_context_from_memory]; the constructed value keeps exactly the
    supplied names that are among the five valid ones, in their order, so
    every name it holds is one of [user_profile], [key_facts], [decisions],
    [open_questions], [todos]. *)
Theorem needed_context_only_valid_names
    (args : QueryAnalysisArgs) (q : string) (b : bool) :
  arg_original_query args = Some q →
  arg_is_ambiguous args = Some b →
  ∃ a, QueryAnalysis_new args = Ok a
     ∧ needed_context_from_memory a
       = filter (λ f, f ∈ valid_fields) <$> arg_needed_context_from_memory args
     ∧ ∀ names f,
         needed_context_from_memory a = Some names → f ∈ names →
         f = "user_profile" ∨ f = "key_facts" ∨ f = "decisions" ∨
         f = "open_questions" ∨ f = "todos".
Proof.
  intros Hq Hb. unfold QueryAnalysis_new. rewrite Hq, Hb.
  eexists. split; [reflexivity |].
  rewrite validate_ambiguity_logic_needed. cbn [needed_context_from_memory].
  assert (Hfilter : validate_memory_fields (arg_needed_context_from_memory args)
            = filter (λ f, f ∈ valid_fields) <$> arg_needed_context_from_memory args).
  { destruct (arg_needed_context_from_memory args) as [v |]; [| done].
    apply validate_memory_fields_filter. }
  split; [exact Hfilter |].
  intros names f Hnames Hin. rewrite Hfilter in Hnames.
  destruct (arg_needed_context_from_memory args) as [v |]; [| done].
  cbn in Hnames. injection Hnames as <-.
  apply list_elem_of_filter in Hin as [Hvalid _].
  by apply valid_fields_names.
Qed.

Lemma needed_context_only_valid_names_sample :
  ∃ a, QueryAnalysis_new Sample.names = Ok a
     ∧ needed_context_from_memory a = Some ["key_facts"; "todos"].
Proof.
  destruct (needed_context_only_valid_names Sample.names "x" false eq_refl eq_refl)
    as (a & Hnew & Hneeded & _).
  exists a. split; [exact Hnew |]. rewrite Hneeded. vm_compute. reflexivity.
Defined.

(** ** graph.py: routing *)

(** C1.  [should_clarify] returns "clarify" exactly when the counter is
    below [MAX_CLARIFICATION_ATTEMPTS] (which is 1) and an analysis is
    present whose [is_ambiguous] is true; it returns "answer" exactly in
    the remaining cases: the counter has reached the maximum, whatever the
    analysis says, or no ambiguous analysis is present. *)
Theorem should_clarify_routing (state : GraphState) :
  MAX_CLARIFICATION_ATTEMPTS = 1
  ∧ (should_clarify state = "clarify" ↔
       counter state < MAX_CLARIFICATION_ATTEMPTS
       ∧ ∃ a, analysis state = Some a ∧ is_ambiguous a = true)
  ∧ (should_clarify state = "answer" ↔
       MAX_CLARIFICATION_ATTEMPTS ≤ counter state
       ∨ ¬ ∃ a, analysis state = Some a ∧ is_ambiguous a = true).
Proof.
  split; [reflexivity |].
  unfold should_clarify, counter.
  destruct (Z.leb_spec MAX_CLARIFICATION_ATTEMPTS (default 0 (clarification_count state)))
    as [Hmax | Hbelow].
  - split; split; try discriminate; try lia; auto.
  - destruct (analysis state) as [a |]; [destruct (is_ambiguous a) eqn:Hamb |].
    + split; split; try discriminate; eauto.
      intros [Hge | Hnone]; [lia |]. exfalso. apply Hnone. eauto.
    + split; split; try discriminate.
      * intros (_ & a' & [= <-] & Hamb'). congruence.
      * intros _. right. intros (a' & [= <-] & Hamb'). congruence.
      * reflexivity.
    + split; split; try discriminate.
      * intros (_ & a' & Hsome & _). discriminate.
      * intros _. right. intros (a' & Hsome & _). discriminate.
      * reflexivity.
Qed.

(** ** nodes.py: the Clarifier *)

(** What the Clarifier returns on a state that carries the analysis [a]. *)
Lemma clarify_node_run (state : GraphState) (a : QueryAnalysis) :
  analysis state = Some a →
  clarify_node state =
    ([], Ok {| messages := [DictMsg "assistant" (clarification_text a)];
               summary := summary state;
               analysis := Some a;
               current_token_count := current_token_count state;
               clarification_count := Some (counter state + 2) |}).
Proof.
  intros Ha. unfold clarify_node, state_analysis. rewrite Ha, M_bind_ret.
  unfold ret, set_messages, set_clarification_count, counter, clarification_text.
  cbn. rewrite Ha. do 4 f_equal. lia.
Qed.

(** C2.  On every state that carries an analysis (as [GraphState] declares)
    the Clarifier returns, without any external call, a dict whose
    ["messages"] entry is exactly one assistant message and whose counter is
    the counter it read (0 when unset) plus 2; summary, analysis and token
    count are returned as they were. *)
Theorem clarify_node_adds_two (state : GraphState) (a : QueryAnalysis) :
  analysis state = Some a →
  clarify_node state =
    ([], Ok {| messages := [DictMsg "assistant" (clarification_text a)];
               summary := summary state;
               analysis := Some a;
               current_token_count := current_token_count state;
               clarification_count := Some (counter state + 2) |}).
Proof. exact (clarify_node_run state a). Qed.

Lemma clarify_node_adds_two_sample :
  clarify_node Sample.asked =
    ([], Ok {| messages := [DictMsg "assistant" "What does that refer to?"];
               summary := SessionSummary_default;
               analysis := Some Sample.vague;
               current_token_count := Some 0;
               clarification_count := Some 2 |}).
Proof.
  exact (clarify_node_adds_two Sample.asked Sample.vague eq_refl).
Defined.

(** X1.  Loop prevention: after one execution of the Clarifier on a state
    whose counter is not negative the router answers, whatever the next
    analysis says. *)
Lemma clarify_then_answer (state state' : GraphState) (tr : list event)
    (next : option QueryAnalysis) :
  0 ≤ counter state →
  clarify_node state = (tr, Ok state') →
  should_clarify {| messages := messages state';
                    summary := summary state';
                    analysis := next;
                    current_token_count := current_token_count state';
                    clarification_count := clarification_count state' |} = "answer".
Proof.
  intros Hpos Hrun. unfold clarify_node, state_analysis in Hrun.
  destruct (analysis state) as [a |] eqn:Ha; [| discriminate].
  rewrite M_bind_ret in Hrun. injection Hrun as _ <-.
  unfold should_clarify, counter in *. cbn.
  destruct (Z.leb_spec MAX_CLARIFICATION_ATTEMPTS
              (default 0 (clarification_count state) + 1 + 1)) as [_ | Hlt]; [done |].
  unfold MAX_CLARIFICATION_ATTEMPTS in Hlt. lia.
Qed.

(** ** nodes.py: the retry loop *)

Section RetryLoop.
Local Open Scope nat_scope.
Context {A : Type} (max_retries : nat) (body : nat → M A).

(** Every attempt is one call of the capability. *)
Hypothesis body_calls_once : ∀ k, ∃ r, body k = ([EvInvoke], r).

Lemma retry_loop_first_success (k : nat) (a : A) :
  ∀ start len,
    start + len = max_retries → k < len →
    (∀ j, start ≤ j < start + k → ∃ e, body j = ([EvInvoke], Raise e)) →
    body (start + k) = ([EvInvoke], Ok a) →
    retry_loop max_retries body (seq start len)
    = (backoff_trace start k, Ok (Some a)).
Proof using Type.
  induction k as [| k IH]; intros start len Hsum Hlt Hfail Hok.
  - destruct len as [| len]; [lia |]. cbn [seq retry_loop].
    rewrite Nat.add_0_r in Hok. rewrite Hok. reflexivity.
  - destruct len as [| len]; [lia |]. cbn [seq retry_loop].
    destruct (Hfail start) as [e He]; [lia |]. rewrite He.
    cbn [bind try_except].
    destruct (Nat.ltb_spec start (max_retries - 1)) as [_ | Hlast]; [| lia].
    unfold emit. cbn [bind].
    rewrite (IH (S start) len); [reflexivity | lia | lia | |].
    + intros j Hj. apply Hfail. lia.
    + by replace (S start + k) with (start + S k) by lia.
Qed.

Lemma retry_loop_all_fail :
  ∀ len start,
    start + S len = max_retries →
    (∀ j, start ≤ j < max_retries → ∃ e, body j = ([EvInvoke], Raise e)) →
    ∃ e, retry_loop max_retries body (seq start (S len))
         = (backoff_trace start len, Raise e).
Proof using Type.
  induction len as [| len IH]; intros start Hsum Hfail.
  - cbn [seq retry_loop]. destruct (Hfail start) as [e He]; [lia |].
    rewrite He. cbn [bind try_except].
    destruct (Nat.ltb_spec start (max_retries - 1)) as [Hnot | _]; [lia |].
    by exists e.
  - change (seq start (S (S len))) with (start :: seq (S start) (S len)).
    cbn [retry_loop]. destruct (Hfail start) as [e He]; [lia |].
    rewrite He. cbn [bind try_except].
    destruct (Nat.ltb_spec start (max_retries - 1)) as [_ | Hlast]; [| lia].
    unfold emit. cbn [bind].
    destruct (IH (S start)) as [e' He']; [lia | |].
    + intros j Hj. apply Hfail. lia.
    + rewrite He'. by exists e'.
Qed.

(** Whatever the attempts do, a value returned by the loop is the value
    of one of its attempts, and the loop makes one call per attempt
    at most. *)
Lemma retry_loop_returns (attempts : list nat) (tr : list event) (a : A) :
  retry_loop max_retries body attempts = (tr, Ok (Some a)) →
  ∃ k t, k ∈ attempts ∧ body k = (t, Ok a).
Proof using Type.
  revert tr. induction attempts as [| k rest IH]; intros tr Hrun.
  - discriminate.
  - cbn [retry_loop] in Hrun. destruct (body k) as [t [a' | e]] eqn:Hbody.
    + cbn in Hrun. injection Hrun as _ <-.
      exists k, t. split; [left | done].
    + cbn [bind try_except] in Hrun.
      destruct (k <? max_retries - 1)%nat; [| destruct t; discriminate].
      unfold emit in Hrun. cbn [bind] in Hrun.
      destruct (retry_loop max_retries body rest) as [t' r'] eqn:Hrest.
      injection Hrun as _ ->.
      destruct (IH t' eq_refl) as (k' & t'' & Hin & Hk').
      exists k', t''. split; [by right | done].
Qed.

Lemma retry_loop_calls (attempts : list nat) :
  calls (retry_loop max_retries body attempts).1 ≤ length attempts.
Proof using body_calls_once.
  induction attempts as [| k rest IH]; [cbn; lia |].
  cbn [retry_loop]. destruct (body_calls_once k) as [[a | e] Hbody]; rewrite Hbody.
  - cbn. lia.
  - cbn [bind try_except].
    destruct (k <? max_retries - 1)%nat; [| cbn; lia].
    unfold emit. cbn [bind].
    destruct (retry_loop max_retries body rest) as [t' r']. cbn in *. lia.
Qed.

Lemma retry_loop_never_exhausted :
  ∀ len start tr,
    start + len = max_retries → 0 < len →
    retry_loop max_retries body (seq start len) ≠ (tr, Ok None).
Proof using Type.
  induction len as [| len IH]; intros start tr Hsum Hlen; [lia |].
  cbn [seq retry_loop]. destruct (body start) as [t [a | e]]; [by cbn |].
  cbn [bind try_except].
  destruct (Nat.ltb_spec start (max_retries - 1)) as [Hmore | _];
    [| by destruct t].
  unfold emit. cbn [bind].
  destruct (retry_loop max_retries body (seq (S start) len)) as [t' r'] eqn:Hrest.
  intros [= _ ->]. apply (IH (S start) t'); [lia | lia | done].
Qed.

End RetryLoop.

(** ** nodes.py: the Query Analyzer *)

Section Analyzer.
Context {object : BaseModel}.


Lemma get_groq_client_ok (env : Env) (key : string) :
  GROQ_API_KEY env = Some key → key ≠ "" → get_groq_client env = ret tt.
Proof.
  intros Hkey Hne. unfold get_groq_client. rewrite Hkey.
  by destruct key.
Qed.

Lemma get_groq_client_cases (env : Env) :
  get_groq_client env = ret tt
  ∨ get_groq_client env
    = raise (Exn ValueError "GROQ_API_KEY environment variable not set").
Proof.
  unfold get_groq_client. destruct (GROQ_API_KEY env) as [[| c key] |]; auto.
Qed.

Lemma fallback_analysis_new (latest_message : string) :
  QueryAnalysis_new {|
    arg_original_query := Some latest_message;
    arg_is_ambiguous := Some false;
    arg_rewritten_query := None;
    arg_needed_context_from_memory := Some [];
    arg_final_augmented_context := None;
    arg_clarifying_questions := None |}
  = Ok (fallback_analysis latest_message).
Proof. reflexivity. Qed.

(** The inner [try] block of the Analyzer, as a function of the attempt. *)
Lemma analyzer_attempt (llm : nat → result QueryAnalysisArgs)
    (f : QueryAnalysis → M GraphState) (k : nat) :
  (∀ a, ∃ state', f a = ([], Ok state')) →
  (attempt_fails (llm k) ∧ ∃ e, bind (invoke_analysis (llm k)) f = ([EvInvoke], Raise e))
  ∨ (∃ a state', f a = ([], Ok state')
       ∧ bind (invoke_analysis (llm k)) f = ([EvInvoke], Ok state')).
Proof.
  intros Hf. unfold invoke_analysis, invoke, emit, lift, attempt_fails.
  destruct (llm k) as [args | e]; cbn.
  - destruct (QueryAnalysis_new args) as [a | e] eqn:Hnew; cbn.
    + right. destruct (Hf a) as [state' Hfa]. exists a, state'.
      by rewrite Hfa.
    + left. eauto.
  - left. eauto.
Qed.



Lemma analyze_query_node_unfold env llm state :
  messages state ≠ [] →
  analyze_query_node env llm state =
    try_except
      (let* _ := get_groq_client env in
       let* r :=
         retry_loop 3
           (λ attempt,
              let* response := invoke_analysis (llm attempt) in
              ret (set_analysis (stored_analysis state response) state))
           (seq 0 3) in
       ret (default state r))
      (λ e, ret (set_analysis (fallback_analysis (latest_text state)) state)).
Proof.
  intros Hne. unfold analyze_query_node, stored_analysis. unfold latest_text.
  destruct (messages state) as [| m ms] eqn:Hmsgs; [done |]. reflexivity.
Qed.

Lemma analyzer_body_cases llm state (k : nat) :
  (attempt_fails (llm k)
   ∧ ∃ e, (let* response := invoke_analysis (llm k) in
           ret (set_analysis (stored_analysis state response) state))
          = ([EvInvoke], Raise e))
  ∨ (∃ a, (let* response := invoke_analysis (llm k) in
           ret (set_analysis (stored_analysis state response) state))
          = ([EvInvoke], Ok (set_analysis a state))).
Proof.
  destruct (analyzer_attempt llm
              (λ response, ret (set_analysis (stored_analysis state response) state)) k)
    as [Hfail | (a & state' & Hret & Hrun)].
  - intros a. by eexists.
  - by left.
  - right. injection Hret as <-. eauto.
Qed.

(** A run of the Analyzer that returns changes nothing but the analysis. *)
Lemma analyze_query_node_frame env llm state tr state' :
  analyze_query_node env llm state = (tr, Ok state') →
  ∃ a, state' = set_analysis a state.
Proof.
  destruct (messages state) as [| m ms] eqn:Hmsgs.
  { unfold analyze_query_node. rewrite Hmsgs. discriminate. }
  rewrite analyze_query_node_unfold by (rewrite Hmsgs; done).
  set (body := λ attempt, bind (invoke_analysis (llm attempt)) _).
  destruct (get_groq_client_cases env) as [-> | ->].
  - rewrite M_bind_ret.
    destruct (retry_loop 3 body (seq 0 3)) as [t [[a |] | e]] eqn:Hloop; cbn.
    + intros [= _ <-].
      apply retry_loop_returns in Hloop as (k & t' & _ & Hk).
      unfold body in Hk.
      destruct (analyzer_body_cases llm state k) as [[_ [e He]] | [a' Ha']];
        [congruence |].
      rewrite Ha' in Hk. injection Hk as _ <-. eauto.
    + exfalso.
      apply (retry_loop_never_exhausted 3 body 3 0 t); [reflexivity | lia | exact Hloop].
    + intros [= _ <-]. eauto.
  - cbn. intros [= _ <-]. eauto.
Qed.

(** X2.  Whatever the capability does, the Analyzer calls it three times at
    most. *)
Lemma analyze_query_node_calls env llm state :
  (calls (analyze_query_node env llm state).1 ≤ 3)%nat.
Proof.
  destruct (messages state) as [| m ms] eqn:Hmsgs.
  { unfold analyze_query_node. rewrite Hmsgs. cbn. lia. }
  rewrite analyze_query_node_unfold by (rewrite Hmsgs; done).
  set (body := λ attempt, bind (invoke_analysis (llm attempt)) _).
  assert (Honce : ∀ k, ∃ r, body k = ([EvInvoke], r)).
  { intros k. unfold body.
    destruct (analyzer_body_cases llm state k) as [[_ [e He]] | [a' Ha']]; eauto. }
  pose proof (retry_loop_calls 3 body Honce (seq 0 3)) as Hcalls.
  destruct (get_groq_client_cases env) as [-> | ->]; [| cbn; lia].
  rewrite M_bind_ret.
  destruct (retry_loop 3 body (seq 0 3)) as [t [[a |] | e]];
    cbn in *; rewrite ?app_nil_r; lia.
Qed.



(** C5.  On a state with no messages the Analyzer makes no call of the
    generation capability, but it does not return the vacuous analysis
    either: it builds it without [original_query], a required field, and
    the [ValidationError] of the constructor leaves the node. *)
Theorem analyze_query_node_no_messages_raises
    (env : Env) (llm : nat → result QueryAnalysisArgs) (state : GraphState) :
  analyze_query_node env llm (set_messages [] state)
  = ([], Raise (Exn ValidationError "Field required: original_query")).
Proof. reflexivity. Qed.

(** C6.  With a non-empty message sequence and a configured credential,
    when each of the three attempts fails (the call raises, or its reply
    fails the schema) the Analyzer performs exactly three calls separated by
    sleeps of 0.5 s and 1.0 s, and then returns the state it was given with
    the [analysis] entry replaced by the fallback analysis: the latest
    message as query, not ambiguous, no needed context, nothing else set.
    Nothing is raised. *)
Theorem analyze_query_node_all_attempts_fail
    (env : Env) (key : string) (llm : nat → result QueryAnalysisArgs)
    (state : GraphState) :
  messages state ≠ [] →
  GROQ_API_KEY env = Some key → key ≠ "" →
  (∀ k, (k < 3)%nat → attempt_fails (llm k)) →
  analyze_query_node env llm state
  = ([EvInvoke; EvSleep 500; EvInvoke; EvSleep 1000; EvInvoke],
     Ok {| messages := messages state;
           summary := summary state;
           analysis :=
             Some {| original_query := latest_text state;
                     is_ambiguous := false;
                     rewritten_query := None;
                     needed_context_from_memory := Some [];
                     final_augmented_context := None;
                     clarifying_questions := None |};
           current_token_count := current_token_count state;
           clarification_count := clarification_count state |}).
Proof.
  intros Hne Hkey Hkeyne Hfail.
  rewrite analyze_query_node_unfold by done.
  rewrite (get_groq_client_ok env key) by done. rewrite M_bind_ret.
  set (body := λ attempt, bind (invoke_analysis (llm attempt)) _).
  destruct (retry_loop_all_fail 3 body 2 0) as [e He]; [reflexivity | |].
  - intros j Hj. unfold body.
    destruct (analyzer_body_cases llm state j) as [[_ Hraise] | [a Ha]]; [done |].
    exfalso. specialize (Hfail j ltac:(lia)).
    revert Ha. unfold invoke_analysis, invoke, emit, lift, attempt_fails in *.
    destruct (llm j) as [args | e]; cbn; [| discriminate].
    destruct Hfail as [e ->]. discriminate.
  - rewrite He. reflexivity.
Qed.

End Analyzer.

Lemma analyze_query_node_all_attempts_fail_sample :
  analyze_query_node (object := Sample.base_model)
    Sample.with_key (λ _, Raise Sample.down) Sample.hello
  = ([EvInvoke; EvSleep 500; EvInvoke; EvSleep 1000; EvInvoke],
     Ok {| messages := [DictMsg "user" "Hello"];
           summary := SessionSummary_default;
           analysis :=
             Some {| original_query := "Hello";
                     is_ambiguous := false;
                     rewritten_query := None;
                     needed_context_from_memory := Some [];
                     final_augmented_context := None;
                     clarifying_questions := None |};
           current_token_count := Some 0;
           clarification_count := Some 0 |}).
Proof.
  apply (analyze_query_node_all_attempts_fail
           Sample.with_key "gsk_test" (λ _, Raise Sample.down) Sample.hello);
    [discriminate | reflexivity | discriminate | intros k _; exact I].
Defined.


(** ** nodes.py: the Summarizer *)

Section Summarizer.
Context `{Tokenizer}.
Implicit Types (env : Env) (llm : nat → result SessionSummary) (state : GraphState).

(** The whole run of the Summarizer once the slice is not empty and the
    client is built.  When the tokenizer accepts the text of the kept
    messages, the first answered attempt returns.  When it raises, every
    answered attempt writes summary and messages and then fails, so all
    three attempts run and the state keeps the writes of the last answered
    one. *)
Lemma summarize_node_three_attempts env llm state :
  get_groq_client env = ret tt →
  slice_from (summarized_to state) (messages state) ≠ [] →
  summarize_node env llm state =
    match count_tokens (messages_to_text (slice_from (-5) (messages state))) with
    | Ok _ =>
        match llm 0%nat with
        | Ok r0 => ([EvInvoke], Ok (summarized r0 state))
        | Raise _ =>
            match llm 1%nat with
            | Ok r1 => ([EvInvoke; EvSleep 500; EvInvoke], Ok (summarized r1 state))
            | Raise _ =>
                ([EvInvoke; EvSleep 500; EvInvoke; EvSleep 1000; EvInvoke],
                 Ok match llm 2%nat with
                    | Ok r2 => summarized r2 state
                    | Raise _ => state
                    end)
            end
        end
    | Raise _ =>
        ([EvInvoke; EvSleep 500; EvInvoke; EvSleep 1000; EvInvoke],
         Ok match llm 2%nat, llm 1%nat, llm 0%nat with
            | Ok r2, _, _ => summarized r2 state
            | Raise _, Ok r1, _ => summarized r1 state
            | Raise _, Raise _, Ok r0 => summarized r0 state
            | Raise _, Raise _, Raise _ => state
            end)
    end.
Proof.
  intros Hclient Hslice. unfold summarize_node.
  change (dict_get (message_range_summarized (summary state)) "to" 0)
    with (summarized_to state).
  destruct (slice_from (summarized_to state) (messages state)) as [| m ms]; [done |].
  rewrite Hclient. unfold ret. cbn [seq summarize_loop app].
  unfold summarize_try, summarized.
  cbn [Schemas.messages set_messages set_summary set_current_token_count
       Schemas.summary Schemas.analysis Schemas.current_token_count
       Schemas.clarification_count].
  destruct (count_tokens (messages_to_text (slice_from (-5) (messages state))))
    as [n | e]; destruct (llm 0%nat), (llm 1%nat), (llm 2%nat); reflexivity.
Qed.

(** Every run of the Summarizer returns: either the state it was given, or
    the state written by an answered attempt, and then the slice was not
    empty. *)
Lemma summarize_node_cases env llm state :
  ∃ tr,
    summarize_node env llm state = (tr, Ok state)
    ∨ ∃ k response,
        llm k = Ok response
        ∧ slice_from (summarized_to state) (messages state) ≠ []
        ∧ summarize_node env llm state = (tr, Ok (summarized response state)).
Proof.
  destruct (slice_from (summarized_to state) (messages state)) as [| m ms] eqn:Hslice.
  { exists []. left. unfold summarize_node.
    change (dict_get (message_range_summarized (summary state)) "to" 0)
      with (summarized_to state). by rewrite Hslice. }
  destruct (get_groq_client_cases env) as [Hclient | Hclient].
  - rewrite (summarize_node_three_attempts env llm state Hclient)
      by (rewrite Hslice; done).
    destruct (count_tokens _) as [n | e];
      destruct (llm 0%nat) as [r0 |] eqn:H0;
      destruct (llm 1%nat) as [r1 |] eqn:H1;
      destruct (llm 2%nat) as [r2 |] eqn:H2;
      eexists; first [ by left | right; by eauto 6 ].
  - exists []. left. unfold summarize_node.
    change (dict_get (message_range_summarized (summary state)) "to" 0)
      with (summarized_to state). by rewrite Hslice, Hclient.
Qed.

(** A run in which some attempt within the three is answered ends in the
    state written by an answered attempt. *)
Lemma summarize_node_answered env (key : string) llm state
    (k : nat) (response : SessionSummary) :
  GROQ_API_KEY env = Some key → key ≠ "" →
  slice_from (summarized_to state) (messages state) ≠ [] →
  (k < 3)%nat →
  llm k = Ok response →
  ∃ tr response',
    summarize_node env llm state = (tr, Ok (summarized response' state)).
Proof.
  intros Hkey Hkeyne Hslice Hk Hreply.
  rewrite (summarize_node_three_attempts env llm state) by eauto using get_groq_client_ok.
  destruct k as [| [| [| k]]]; [| | | lia]; rewrite Hreply;
    destruct (count_tokens _) as [n | e];
    destruct (llm 0%nat) as [r0 |] eqn:H0;
    destruct (llm 1%nat) as [r1 |] eqn:H1;
    destruct (llm 2%nat) as [r2 |] eqn:H2;
    try discriminate; by eauto.
Qed.

(** The run whose first [k] attempts raise and whose next one is answered,
    when the tokenizer accepts the text of the kept messages. *)
Lemma summarize_node_first_success env (key : string) llm state
    (k : nat) (response : SessionSummary) (n : Z) :
  GROQ_API_KEY env = Some key → key ≠ "" →
  slice_from (summarized_to state) (messages state) ≠ [] →
  (k < 3)%nat →
  (∀ j, (j < k)%nat → ∃ e, llm j = Raise e) →
  llm k = Ok response →
  count_tokens (messages_to_text (slice_from (-5) (messages state))) = Ok n →
  summarize_node env llm state
  = (backoff_trace 0 k, Ok (summarized response state)).
Proof.
  intros Hkey Hkeyne Hslice Hk Hfail Hreply Htokens.
  rewrite (summarize_node_three_attempts env llm state) by eauto using get_groq_client_ok.
  rewrite Htokens.
  destruct k as [| [| [| k]]]; [| | | lia].
  - by rewrite Hreply.
  - destruct (Hfail 0%nat) as [e0 ->]; [lia |]. by rewrite Hreply.
  - destruct (Hfail 0%nat) as [e0 ->]; [lia |].
    destruct (Hfail 1%nat) as [e1 ->]; [lia |]. by rewrite Hreply.
Qed.

Lemma summarized_to_summarized (response : SessionSummary) state :
  summarized_to (summarized response state) = Z.of_nat (length (messages state)).
Proof. reflexivity. Qed.

(** One execution never lowers the index. *)
Lemma summarize_node_to_monotone env llm state tr state' :
  summarize_node env llm state = (tr, Ok state') →
  summarized_to state ≤ summarized_to state'.
Proof.
  intros Hrun.
  destruct (summarize_node_cases env llm state)
    as [tr' [Hsame | (k & response & _ & Hslice & Hdone)]].
  - rewrite Hsame in Hrun. injection Hrun as _ <-. lia.
  - rewrite Hdone in Hrun. injection Hrun as _ <-.
    rewrite summarized_to_summarized.
    apply slice_from_nonempty_lt in Hslice. lia.
Qed.

End Summarizer.

Section SummarizerProperties.
Context `{Tokenizer}.
Implicit Types (env : Env) (llm : nat → result SessionSummary) (state : GraphState).

(** When the slice is not empty and the credential is configured, the
    Summarizer starts by calling the capability. *)
Lemma summarize_node_calls_first env (key : string) llm state :
  GROQ_API_KEY env = Some key → key ≠ "" →
  slice_from (summarized_to state) (messages state) ≠ [] →
  ∃ tr r, summarize_node env llm state = (EvInvoke :: tr, r).
Proof.
  intros Hkey Hkeyne Hslice.
  rewrite (summarize_node_three_attempts env llm state) by eauto using get_groq_client_ok.
  destruct (count_tokens _), (llm 0%nat), (llm 1%nat), (llm 2%nat); eauto.
Qed.

Lemma add_messages_keeps_left (same : Message → Message → bool)
    (left right : list Message) :
  take (length left) (add_messages same left right) = left.
Proof. unfold add_messages. by rewrite take_app_length. Qed.

Lemma add_messages_known (same : Message → Message → bool)
    (left right : list Message) :
  (∀ m, same m m = true) →
  (∀ m, m ∈ right → m ∈ left) →
  add_messages same left right = left.
Proof.
  intros Hrefl Hknown. unfold add_messages.
  replace (List.filter _ right) with (@nil Message); [by rewrite app_nil_r |].
  symmetry. induction right as [| m right IH]; [done |]. cbn.
  assert (Hin : existsb (same m) left = true).
  { apply existsb_exists. exists m. split; [| by apply Hrefl].
    apply list_elem_of_In, Hknown. left. }
  rewrite Hin. cbn. apply IH. intros m' Hm'. apply Hknown. by right.
Qed.

(** C3.  A run of the Summarizer on a state with a non-empty unsummarized
    slice, in which an attempt within the three is answered after the
    earlier ones raised and the tokenizer accepts the text, writes the range
    [{"from": 0, "to": n}] for [n] the number of messages at the call,
    whatever range the reply carried, and a token count taken over the last
    five messages only.  It also returns those last five messages under
    ["messages"]; but that entry goes through the reducer of the key, which
    only appends: the live sequence keeps every one of its [n] messages, and
    with more than five messages it is not the five-message tail. *)
Theorem summarize_node_truncation_is_merged_back env (key : string) llm state
    (k : nat) (response : SessionSummary) (n : Z) (same : Message → Message → bool) :
  GROQ_API_KEY env = Some key → key ≠ "" →
  slice_from (summarized_to state) (messages state) ≠ [] →
  (k < 3)%nat →
  (∀ j, (j < k)%nat → ∃ e, llm j = Raise e) →
  llm k = Ok response →
  count_tokens
    (messages_to_text (drop (length (messages state) - 5) (messages state))) = Ok n →
  ∃ tr state',
    summarize_node env llm state = (tr, Ok state')
    ∧ summary state'
      = set_message_range_summarized
          [("from", 0); ("to", Z.of_nat (length (messages state)))] response
    ∧ messages state' = drop (length (messages state) - 5) (messages state)
    ∧ current_token_count state' = Some n
    ∧ take (length (messages state))
        (add_messages same (messages state) (messages state'))
      = messages state
    ∧ ((∀ m, same m m = true) →
       add_messages same (messages state) (messages state') = messages state)
    ∧ ((5 < length (messages state))%nat →
       add_messages same (messages state) (messages state')
       ≠ drop (length (messages state) - 5) (messages state)).
Proof.
  intros Hkey Hkeyne Hslice Hk Hfail Hreply Htokens.
  rewrite <- slice_from_last5 in Htokens.
  exists (backoff_trace 0 k), (summarized response state).
  split; [by eapply summarize_node_first_success |].
  split; [reflexivity |].
  split; [cbn; apply slice_from_last5 |].
  split; [cbn; by rewrite Htokens |].
  split; [apply add_messages_keeps_left |].
  split.
  - intros Hrefl. apply add_messages_known; [done |].
    cbn. rewrite slice_from_last5. intros m Hm.
    by apply (subseteq_drop (length (messages state) - 5) (messages state)).
  - intros Hlong Heq. apply (f_equal length) in Heq.
    unfold add_messages in Heq. rewrite length_app, length_drop in Heq. lia.
Qed.

(** C4.  Every execution of the Summarizer returns a state, and the index
    [message_range_summarized.to] of that state is not below the one it
    started from, whether the execution summarized, failed or had nothing
    to do.  Hence along any session, made of Summarizer executions and of
    steps that leave the summary alone, the index never decreases. *)
Theorem summarized_to_never_decreases :
  (∀ env llm state,
     ∃ tr state',
       summarize_node env llm state = (tr, Ok state')
       ∧ summarized_to state ≤ summarized_to state')
  ∧ (∀ state state',
       rtc session_step state state' →
       summarized_to state ≤ summarized_to state').
Proof.
  split.
  - intros env llm state.
    destruct (summarize_node_cases env llm state)
      as [tr [Hsame | (k & response & _ & _ & Hdone)]].
    + exists tr, state. split; [done | lia].
    + exists tr, (summarized response state). split; [done |].
      by eapply summarize_node_to_monotone.
  - intros state state' Hrun.
    induction Hrun as [state | state mid state' Hstep _ IH]; [lia |].
    etrans; [| exact IH]. destruct Hstep as [env llm state tr mid Hexec | state mid Hsame].
    + by eapply summarize_node_to_monotone.
    + unfold summarized_to. rewrite Hsame. lia.
Qed.

(** C10.  When the live message count does not exceed
    [message_range_summarized.to], the Summarizer returns the state as it
    is and performs no call.  In particular, after a run that summarized
    [n] messages and kept the last five, messages appended to the kept ones
    are left out of the summary for as long as the live count stays within
    [n]; once it exceeds [n] the Summarizer calls the capability again. *)
Theorem summarize_node_skips_covered :
  (∀ env llm state,
     Z.of_nat (length (messages state)) ≤ summarized_to state →
     summarize_node env llm state = ([], Ok state))
  ∧ (∀ env0 (key0 : string) llm0 state0 (k : nat) (response : SessionSummary),
       GROQ_API_KEY env0 = Some key0 → key0 ≠ "" →
       slice_from (summarized_to state0) (messages state0) ≠ [] →
       (k < 3)%nat →
       (∀ j, (j < k)%nat → ∃ e, llm0 j = Raise e) →
       llm0 k = Ok response →
       ∃ tr state1,
         summarize_node env0 llm0 state0 = (tr, Ok state1)
         ∧ messages state1 = drop (length (messages state0) - 5) (messages state0)
         ∧ summarized_to state1 = Z.of_nat (length (messages state0))
         ∧ ∀ env llm (extra : list Message),
             ((length (messages state1 ++ extra) ≤ length (messages state0))%nat →
              summarize_node env llm (set_messages (messages state1 ++ extra) state1)
              = ([], Ok (set_messages (messages state1 ++ extra) state1)))
             ∧ ((length (messages state0) < length (messages state1 ++ extra))%nat →
                ∀ key : string, GROQ_API_KEY env = Some key → key ≠ "" →
                ∃ tr' r,
                  summarize_node env llm (set_messages (messages state1 ++ extra) state1)
                  = (EvInvoke :: tr', r))).
Proof.
  assert (Hskip : ∀ env llm state,
            Z.of_nat (length (messages state)) ≤ summarized_to state →
            summarize_node env llm state = ([], Ok state)).
  { intros env llm state Hle. unfold summarize_node.
    change (dict_get (message_range_summarized (summary state)) "to" 0)
      with (summarized_to state).
    by rewrite slice_from_covered. }
  split; [exact Hskip |].
  intros env0 key0 llm0 state0 k response Hkey Hkeyne Hslice Hk Hfail Hreply.
  destruct (summarize_node_answered env0 key0 llm0 state0 k response)
    as (tr & response' & Hrun); [done .. |].
  exists tr, (summarized response' state0).
  split; [exact Hrun |].
  split; [cbn; by rewrite slice_from_last5 |].
  split; [reflexivity |].
  intros env llm extra. split.
  - intros Hle. apply Hskip. cbn in *. lia.
  - intros Hgt key Hkey' Hkeyne'.
    apply (summarize_node_calls_first env key); [done | done |].
    apply slice_from_beyond; cbn in *; lia.
Qed.

End SummarizerProperties.

(** ** nodes.py: the Answerer *)

Section Answerer.
Context `{Tokenizer} {object : BaseModel}.
Implicit Types (env : Env) (state : GraphState).


(** The whole run of the Answerer on a state with an analysis and
    messages: the three statements of the [try] that can raise are the
    client, the call and the token count, in this order, and each of them
    leads to the apology with the state dict not yet written. *)
Lemma answer_node_run env (llm : result string) state (a : QueryAnalysis) :
  analysis state = Some a →
  messages state ≠ [] →
  answer_node env llm state =
    let apology e :=
      Ok {| messages :=
              [DictMsg "assistant"
                 ("I apologize, but I encountered an error: " +:+ exn_msg e)];
            summary := summary state;
            analysis := Some a;
            current_token_count := current_token_count state;
            clarification_count := clarification_count state |} in
    match get_groq_client env with
    | (_, Raise e) => ([], apology e)
    | (_, Ok _) =>
        match llm with
        | Raise e => ([EvInvoke], apology e)
        | Ok content =>
            match count_tokens (messages_to_text (messages state)
                                +:+ NL +:+ "assistant: " +:+ content) with
            | Raise e => ([EvInvoke], apology e)
            | Ok n =>
                ([EvInvoke],
                 Ok {| messages := [DictMsg "assistant" content];
                       summary := summary state;
                       analysis := Some a;
                       current_token_count := Some n;
                       clarification_count := Some 0 |})
            end
        end
    end.
Proof.
  intros Ha Hne. unfold answer_node, state_analysis. rewrite Ha, M_bind_ret.
  destruct (messages state) as [| m ms] eqn:Hmsgs; [done |].
  destruct (get_groq_client_cases env) as [-> | ->]; cbn.
  - unfold invoke, emit, lift. destruct llm as [content | e]; cbn.
    + destruct (count_tokens _) as [n | e]; cbn;
        unfold set_messages; cbn; by rewrite Ha.
    + unfold set_messages; cbn; by rewrite Ha.
  - unfold set_messages; cbn; by rewrite Ha.
Qed.

(** The steps other than the Summarizer return the summary they were given. *)
Lemma other_nodes_keep_summary env state (tr : list event) (state' : GraphState) :
  (∀ llm, analyze_query_node env llm state = (tr, Ok state') →
          summary state' = summary state)
  ∧ (∀ llm, answer_node env llm state = (tr, Ok state') →
            summary state' = summary state)
  ∧ (clarify_node state = (tr, Ok state') → summary state' = summary state).
Proof.
  split; [| split].
  - intros llm Hrun. by apply analyze_query_node_frame in Hrun as [a ->].
  - intros llm.
    destruct (analysis state) as [a |] eqn:Ha;
      [| unfold answer_node, state_analysis; rewrite Ha; discriminate].
    destruct (messages state) as [| m ms] eqn:Hmsgs.
    { unfold answer_node, state_analysis.
      rewrite Ha, M_bind_ret, Hmsgs. by intros [= _ <-]. }
    rewrite (answer_node_run env llm state a Ha) by (rewrite Hmsgs; done). cbn zeta.
    destruct (get_groq_client env) as [t [[] | e]]; [| by intros [= _ <-]].
    destruct llm as [content | e]; [| by intros [= _ <-]].
    destruct (count_tokens _); by intros [= _ <-].
  - unfold clarify_node, state_analysis.
    destruct (analysis state) as [a |]; [| discriminate]. rewrite M_bind_ret.
    by intros [= _ <-].
Qed.


End Answerer.

(** ** The missing credential *)

Section MissingCredential.
Context {object : BaseModel}.

(** C8.  With [GROQ_API_KEY] unset, on a state holding one user message:
    no step calls the capability or sleeps, so nothing is retried; but no
    step lets the [ValueError] of [get_groq_client] out either.  The
    Analyzer returns the fallback analysis, the Answerer returns the apology
    as an assistant message, and the Summarizer returns the state it was
    given. *)
Theorem missing_credential_is_absorbed `{Tokenizer}
    (llm_analysis : nat → result QueryAnalysisArgs) (llm_answer : result string)
    (llm_summary : nat → result SessionSummary) :
  get_groq_client Sample.without_key
  = raise (Exn ValueError "GROQ_API_KEY environment variable not set")
  ∧ analyze_query_node Sample.without_key llm_analysis Sample.hello
    = ([], Ok (set_analysis (fallback_analysis "Hello") Sample.hello))
  ∧ answer_node Sample.without_key llm_answer Sample.hello
    = ([], Ok (set_messages
                 [DictMsg "assistant"
                    ("I apologize, but I encountered an error: " +:+
                     "GROQ_API_KEY environment variable not set")]
                 Sample.hello))
  ∧ summarize_node Sample.without_key llm_summary Sample.hello
    = ([], Ok Sample.hello).
Proof. repeat split. Qed.

End MissingCredential.

(** ** The properties on sample data *)

Lemma summarize_node_truncation_is_merged_back_sample :
  ∃ tr state',
    summarize_node (H := Sample.byte_tokenizer)
      Sample.with_key Sample.second_try Sample.long_chat = (tr, Ok state')
    ∧ message_range_summarized (summary state') = [("from", 0); ("to", 7)]
    ∧ messages state' = drop 2 Sample.seven
    ∧ current_token_count state' = Some 40
    ∧ add_messages
        (λ m1 m2, String.eqb (get_message_content m1) (get_message_content m2))
        Sample.seven (messages state')
      = Sample.seven.
Proof.
  destruct (summarize_node_truncation_is_merged_back (H := Sample.byte_tokenizer)
              Sample.with_key "gsk_test" Sample.second_try Sample.long_chat
              1 Sample.reply 40
              (λ m1 m2, String.eqb (get_message_content m1) (get_message_content m2))
              eq_refl)
    as (tr & state' & Hrun & Hsummary & Hmsgs & Htokens & _ & Hlive & _).
  - discriminate.
  - discriminate.
  - lia.
  - intros [| j] Hj; [by eexists | lia].
  - reflexivity.
  - reflexivity.
  - exists tr, state'. split; [exact Hrun |]. split; [by rewrite Hsummary |].
    split; [exact Hmsgs |]. split; [exact Htokens |].
    apply Hlive. intros m. apply String.eqb_refl.
Defined.

Lemma summarized_to_never_decreases_sample :
  summarized_to Sample.long_chat
  ≤ summarized_to (summarized (H := Sample.byte_tokenizer) Sample.reply Sample.long_chat)
  ∧ summarized_to Sample.long_chat = 0
  ∧ summarized_to (summarized (H := Sample.byte_tokenizer) Sample.reply Sample.long_chat) = 7.
Proof.
  split; [| split; reflexivity].
  apply (proj2 (summarized_to_never_decreases (H := Sample.byte_tokenizer))).
  apply rtc_once.
  by apply (step_summarize Sample.with_key Sample.second_try Sample.long_chat
              [EvInvoke; EvSleep 500; EvInvoke]).
Defined.

Lemma summarize_node_skips_covered_sample :
  summarize_node (H := Sample.byte_tokenizer) Sample.with_key Sample.second_try
    (set_messages
       (drop 2 Sample.seven ++ [DictMsg "user" "m8"])
       (summarized (H := Sample.byte_tokenizer) Sample.reply Sample.long_chat))
  = ([], Ok (set_messages
               (drop 2 Sample.seven ++ [DictMsg "user" "m8"])
               (summarized (H := Sample.byte_tokenizer) Sample.reply Sample.long_chat))).
Proof.
  apply (proj1 (summarize_node_skips_covered (H := Sample.byte_tokenizer))).
  by vm_compute.
Defined.



Lemma clarify_then_answer_sample :
  should_clarify {| messages := [DictMsg "assistant" "What does that refer to?"];
                    summary := SessionSummary_default;
                    analysis := Some Sample.vague;
                    current_token_count := Some 0;
                    clarification_count := Some 2 |} = "answer".
Proof.
  exact (clarify_then_answer Sample.asked
           {| messages := [DictMsg "assistant" "What does that refer to?"];
              summary := SessionSummary_default;
              analysis := Some Sample.vague;
              current_token_count := Some 0;
              clarification_count := Some 2 |}
           [] (Some Sample.vague) ltac:(by vm_compute) eq_refl).
Defined.

(** * Further properties of the code *)

(** ** schemas.py: the validators *)

(** X3.  In every [QueryAnalysis] that construction returns, a query that
    is not ambiguous carries no clarifying question: the field is [None] or
    the empty list, whatever the arguments held. *)
Theorem constructed_analysis_couples_questions
    (args : QueryAnalysisArgs) (a : QueryAnalysis) :
  QueryAnalysis_new args = Ok a →
  is_ambiguous a = false →
  clarifying_questions a = None ∨ clarifying_questions a = Some [].
Proof.
  unfold QueryAnalysis_new.
  destruct (arg_original_query args) as [q |]; [| discriminate].
  destruct (arg_is_ambiguous args) as [b |]; [| discriminate].
  intros [= <-]. unfold validate_ambiguity_logic. cbn.
  destruct b; cbn; [discriminate |].
  destruct (arg_clarifying_questions args) as [[| q' qs] |]; cbn; auto.
Qed.

Lemma constructed_analysis_couples_questions_sample :
  ∃ a, QueryAnalysis_new
         {| arg_original_query := Some "Book it";
            arg_is_ambiguous := Some false;
            arg_rewritten_query := None;
            arg_needed_context_from_memory := None;
            arg_final_augmented_context := None;
            arg_clarifying_questions := Some ["Which hotel?"; "Which dates?"] |}
       = Ok a
     ∧ (clarifying_questions a = None ∨ clarifying_questions a = Some []).
Proof.
  eexists. split; [vm_compute; reflexivity |].
  by apply (constructed_analysis_couples_questions
              {| arg_original_query := Some "Book it";
                 arg_is_ambiguous := Some false;
                 arg_rewritten_query := None;
                 arg_needed_context_from_memory := None;
                 arg_final_augmented_context := None;
                 arg_clarifying_questions := Some ["Which hotel?"; "Which dates?"] |}).
Defined.

Lemma filter_valid_idem (v : list string) :
  filter (λ f, f ∈ valid_fields) (filter (λ f, f ∈ valid_fields) v)
  = filter (λ f, f ∈ valid_fields) v.
Proof.
  induction v as [| f v IH]; [done |].
  rewrite filter_cons. destruct (decide (f ∈ valid_fields)) as [Hin | Hout]; [| done].
  rewrite filter_cons, decide_True by done. by rewrite IH.
Qed.

(** X4.  Sanitizing the requested memory fields a second time changes
    nothing, and a list that names valid fields only, with its order and
    its repetitions, is returned as it is. *)
Theorem validate_memory_fields_stable (v : option (list string)) :
  validate_memory_fields (validate_memory_fields v) = validate_memory_fields v
  ∧ ∀ names, v = Some names → Forall (λ f, f ∈ valid_fields) names →
             validate_memory_fields v = Some names.
Proof.
  split.
  - destruct v as [names |]; [| done].
    rewrite !validate_memory_fields_filter. by rewrite filter_valid_idem.
  - intros names -> Hvalid. rewrite validate_memory_fields_filter. f_equal.
    induction Hvalid as [| f names Hf _ IH]; [done |].
    rewrite filter_cons, decide_True by done. by rewrite IH.
Qed.

Lemma validate_memory_fields_stable_sample :
  validate_memory_fields (Some ["todos"; "key_facts"; "todos"])
  = Some ["todos"; "key_facts"; "todos"].
Proof.
  apply (proj2 (validate_memory_fields_stable (Some ["todos"; "key_facts"; "todos"])));
    [reflexivity |].
  repeat constructor; by vm_compute.
Defined.

(** ** graph.py: the second router and the wiring *)

(** X5.  [should_summarize] returns "summarize" exactly when the token
    count, taken as 0 when the key is absent, exceeds 800, and "end"
    otherwise; a count of exactly 800 ends the turn. *)
Theorem should_summarize_routing (state : GraphState) :
  TOKEN_THRESHOLD = 800
  ∧ (should_summarize state = "summarize" ↔ 800 < token_count state)
  ∧ (should_summarize state = "end" ↔ token_count state ≤ 800).
Proof.
  split; [reflexivity |]. unfold should_summarize, token_count, TOKEN_THRESHOLD.
  destruct (Z.ltb_spec 800 (default 0 (current_token_count state))) as [Hgt | Hle];
    split; split; (done || lia).
Qed.

Lemma clarify_edge_defined (state : GraphState) :
  next analyze_query state
  = Some (Some (if decide (should_clarify state = "clarify") then clarify else answer)).
Proof.
  unfold next, should_clarify.
  destruct (_ <=? _); [done |].
  by destruct (match analysis state with Some a => is_ambiguous a | None => false end).
Qed.

Lemma summarize_edge_defined (state : GraphState) :
  next answer state
  = Some (if decide (should_summarize state = "summarize") then Some summarize else None).
Proof. unfold next, should_summarize. by destruct (_ <? _). Qed.

(** X6.  The graph is wired so that one invocation runs the Analyzer, then
    either the Clarifier alone or the Answerer, and the Summarizer only
    after the Answerer and only when [should_summarize] asks for it: the
    nodes run are one of three sequences, every router label has an edge,
    and nothing runs after the third node however far the walk may go. *)
Theorem workflow_paths (fuel : nat) (after : node → GraphState) :
  walk (2 + fuel) after entry_point
  = if decide (should_clarify (after analyze_query) = "clarify")
    then [analyze_query; clarify]
    else if decide (should_summarize (after answer) = "summarize")
         then [analyze_query; answer; summarize]
         else [analyze_query; answer].
Proof.
  unfold entry_point. cbn [Nat.add walk].
  rewrite clarify_edge_defined.
  destruct (decide (should_clarify (after analyze_query) = "clarify")) as [_ | _].
  - reflexivity.
  - rewrite summarize_edge_defined.
    destruct (decide (should_summarize (after answer) = "summarize")) as [_ | _];
      [| reflexivity].
    destruct fuel; reflexivity.
Qed.

(** ** nodes.py: the Analyzer on every behaviour of the capability *)

Section AnalyzerTotal.
Context {object : BaseModel}.

Lemma analyzer_body_fails (llm : nat → result QueryAnalysisArgs)
    (state : GraphState) (k : nat) :
  attempt_fails (llm k) →
  ∃ e, (let* response := invoke_analysis (llm k) in
        ret (set_analysis (stored_analysis state response) state))
       = ([EvInvoke], Raise e).
Proof.
  unfold attempt_fails, invoke_analysis, invoke, emit, lift.
  destruct (llm k) as [args | e]; cbn; [| by eauto].
  intros [e ->]. cbn. eauto.
Qed.

Lemma analyzer_body_answers (llm : nat → result QueryAnalysisArgs)
    (state : GraphState) (k : nat) (args : QueryAnalysisArgs) (response : QueryAnalysis) :
  llm k = Ok args → QueryAnalysis_new args = Ok response →
  (let* response := invoke_analysis (llm k) in
   ret (set_analysis (stored_analysis state response) state))
  = ([EvInvoke], Ok (set_analysis (stored_analysis state response) state)).
Proof.
  intros Hreply Hnew. unfold invoke_analysis, invoke, emit, lift.
  rewrite Hreply. cbn. by rewrite Hnew.
Qed.

(** The Analyzer returns on every state that holds a message. *)
Lemma analyze_query_node_total
    (env : Env) (llm : nat → result QueryAnalysisArgs) (state : GraphState) :
  messages state ≠ [] →
  ∃ tr a, analyze_query_node env llm state = (tr, Ok (set_analysis a state)).
Proof.
  intros Hne. rewrite analyze_query_node_unfold by done.
  set (body := λ attempt, bind (invoke_analysis (llm attempt)) _).
  destruct (get_groq_client_cases env) as [-> | ->]; [| cbn; by eauto].
  rewrite M_bind_ret.
  destruct (retry_loop 3 body (seq 0 3)) as [t [[state' |] | e]] eqn:Hloop; cbn.
  - apply retry_loop_returns in Hloop as (k & t' & _ & Hk). unfold body in Hk.
    destruct (analyzer_body_cases llm state k) as [[_ [e He]] | [a Ha]];
      [congruence |].
    rewrite Ha in Hk. injection Hk as _ <-. eauto.
  - exfalso.
    apply (retry_loop_never_exhausted 3 body 3 0 t); [reflexivity | lia | exact Hloop].
  - eauto.
Qed.

(** X7.  With at least one message the Analyzer never raises, whatever the
    environment holds and whatever the capability does on each call: it
    returns the state it was given with a new analysis and nothing else
    changed. *)
Theorem analyze_query_node_never_raises
    (env : Env) (llm : nat → result QueryAnalysisArgs) (state : GraphState) :
  messages state ≠ [] →
  ∃ tr a, analyze_query_node env llm state = (tr, Ok (set_analysis a state)).
Proof. exact (analyze_query_node_total env llm state). Qed.

End AnalyzerTotal.

Lemma analyze_query_node_never_raises_sample :
  ∃ tr a,
    analyze_query_node (object := Sample.base_model)
      Sample.without_key (λ _, Ok Sample.names) Sample.hello
    = (tr, Ok (set_analysis a Sample.hello)).
Proof.
  by apply (analyze_query_node_never_raises (object := Sample.base_model)
              Sample.without_key (λ _, Ok Sample.names) Sample.hello).
Defined.

Section AnalyzerSuccess.
Context {object : BaseModel}.

Lemma recent_context_is_last_five (msgs : list Message) :
  (if (5 <? length msgs)%nat then slice_from (-5) msgs else msgs)
  = slice_from (-5) msgs.
Proof.
  destruct (Nat.ltb_spec 5 (length msgs)) as [_ | Hle]; [done |].
  rewrite slice_from_last5. by replace (length msgs - 5)%nat with 0%nat by lia.
Qed.

(** X8.  When the credential is configured and the capability answers an
    attempt within the three with a reply that passes the schema, earlier
    attempts having failed, the Analyzer returns the state it was given with
    the [analysis] entry set to that reply, [original_query] replaced by the
    text of the latest message, whatever query the reply carried; the needed
    memory fields are the valid names of the reply; and
    [final_augmented_context] is rebuilt, from the summary fields so named
    and the last five messages at most, exactly when some valid name is
    left, and is otherwise left as the reply gave it. *)
Theorem analyze_query_node_success
    (env : Env) (key : string) (llm : nat → result QueryAnalysisArgs)
    (state : GraphState) (k : nat) (args : QueryAnalysisArgs)
    (response : QueryAnalysis) :
  messages state ≠ [] →
  GROQ_API_KEY env = Some key → key ≠ "" →
  (k < 3)%nat →
  (∀ j, (j < k)%nat → attempt_fails (llm j)) →
  llm k = Ok args →
  QueryAnalysis_new args = Ok response →
  ∃ a,
    analyze_query_node env llm state
    = (backoff_trace 0 k,
       Ok {| messages := messages state;
             summary := summary state;
             analysis := Some a;
             current_token_count := current_token_count state;
             clarification_count := clarification_count state |})
    ∧ original_query a = latest_text state
    ∧ is_ambiguous a = is_ambiguous response
    ∧ rewritten_query a = rewritten_query response
    ∧ clarifying_questions a = clarifying_questions response
    ∧ needed_context_from_memory a
      = filter (λ f, f ∈ valid_fields) <$> arg_needed_context_from_memory args
    ∧ final_augmented_context a
      = match needed_context_from_memory a with
        | Some (f :: fs) =>
            Some (format_summary_for_prompt (summary state) (f :: fs)
                  +:+ NL +:+ NL +:+ "Recent conversation:" +:+ NL +:+
                  conversation_lines (slice_from (-5) (messages state)))
        | Some [] | None => final_augmented_context response
        end.
Proof.
  intros Hne Hkey Hkeyne Hk Hfail Hreply Hnew.
  exists (stored_analysis state response). split.
  - rewrite analyze_query_node_unfold by done.
    rewrite (get_groq_client_ok env key) by done. rewrite M_bind_ret.
    set (body := λ attempt, bind (invoke_analysis (llm attempt)) _).
    rewrite (retry_loop_first_success 3 body k
               (set_analysis (stored_analysis state response) state) 0 3);
      [cbn; by rewrite app_nil_r | reflexivity | done | |].
    + intros j Hj. unfold body. apply analyzer_body_fails, Hfail. lia.
    + unfold body. by apply (analyzer_body_answers llm state k args).
  - assert (Hneeded : needed_context_from_memory response
              = filter (λ f, f ∈ valid_fields) <$> arg_needed_context_from_memory args).
    { revert Hnew. unfold QueryAnalysis_new.
      destruct (arg_original_query args); [| discriminate].
      destruct (arg_is_ambiguous args); [| discriminate].
      intros [= <-]. rewrite validate_ambiguity_logic_needed. cbn.
      destruct (arg_needed_context_from_memory args) as [v |]; [| done].
      apply validate_memory_fields_filter. }
    unfold stored_analysis. rewrite recent_context_is_last_five. cbn.
    destruct (needed_context_from_memory response) as [[| f fs] |] eqn:Hn;
      cbn; rewrite ?Hn; repeat split; by rewrite <- ?Hneeded.
Qed.

End AnalyzerSuccess.

Lemma analyze_query_node_success_sample :
  ∃ a,
    analyze_query_node (object := Sample.base_model) Sample.with_key
      (λ k, if (k =? 1)%nat then Ok Sample.names else Raise Sample.down)
      Sample.hello
    = ([EvInvoke; EvSleep 500; EvInvoke],
       Ok {| messages := [DictMsg "user" "Hello"];
             summary := SessionSummary_default;
             analysis := Some a;
             current_token_count := Some 0;
             clarification_count := Some 0 |})
    ∧ original_query a = "Hello"
    ∧ needed_context_from_memory a = Some ["key_facts"; "todos"].
Proof.
  destruct (analyze_query_node_success (object := Sample.base_model)
              Sample.with_key "gsk_test"
              (λ k, if (k =? 1)%nat then Ok Sample.names else Raise Sample.down)
              Sample.hello 1 Sample.names
              {| original_query := "x"; is_ambiguous := false;
                 rewritten_query := None;
                 needed_context_from_memory := Some ["key_facts"; "todos"];
                 final_augmented_context := None;
                 clarifying_questions := None |})
    as (a & Hrun & Hquery & _ & _ & _ & Hneeded & _).
  - discriminate.
  - reflexivity.
  - discriminate.
  - lia.
  - intros [| j] Hj; [exact I | lia].
  - reflexivity.
  - by vm_compute.
  - exists a. split; [exact Hrun |]. split; [exact Hquery |].
    rewrite Hneeded. by vm_compute.
Defined.

(** ** nodes.py: failures, call budgets and edge cases *)

Section NodeEdges.
Context `{Tokenizer} {object : BaseModel}.
Implicit Types (env : Env) (state : GraphState).

(** X9.  When the slice is not empty, the credential is configured and all
    three attempts raise, the Summarizer calls the capability three times,
    sleeping 0.5 s and 1.0 s in between, raises nothing, and returns the
    state exactly as it was given: no part of the summary, the messages or
    the counters is written. *)
Theorem summarize_node_all_attempts_fail env (key : string)
    (llm : nat → result SessionSummary) state :
  GROQ_API_KEY env = Some key → key ≠ "" →
  messages_to_summarize state ≠ [] →
  (∀ k, (k < 3)%nat → ∃ e, llm k = Raise e) →
  summarize_node env llm state
  = ([EvInvoke; EvSleep 500; EvInvoke; EvSleep 1000; EvInvoke], Ok state).
Proof.
  intros Hkey Hkeyne Hslice Hfail. unfold messages_to_summarize in Hslice.
  rewrite (summarize_node_three_attempts env llm state) by eauto using get_groq_client_ok.
  destruct (Hfail 0%nat) as [e0 ->]; [lia |].
  destruct (Hfail 1%nat) as [e1 ->]; [lia |].
  destruct (Hfail 2%nat) as [e2 ->]; [lia |].
  by destruct (count_tokens _).
Qed.

(** X10.  Whatever the capability does and whatever the state, one
    execution of the Summarizer calls it three times at most, one execution
    of the Answerer once at most and never sleeps, and the Clarifier
    performs no call and no sleep at all. *)
Theorem call_budget env state :
  (∀ llm, (calls (summarize_node env llm state).1 ≤ 3)%nat)
  ∧ (∀ llm, (calls (answer_node env llm state).1 ≤ 1)%nat
            ∧ sleeps (answer_node env llm state).1 = [])
  ∧ (clarify_node state).1 = [].
Proof.
  split; [| split].
  - intros llm.
    destruct (slice_from (summarized_to state) (messages state)) as [| m ms] eqn:Hslice.
    { unfold summarize_node.
      change (dict_get (message_range_summarized (summary state)) "to" 0)
        with (summarized_to state). rewrite Hslice. cbn. lia. }
    destruct (get_groq_client_cases env) as [Hclient | Hclient].
    + rewrite (summarize_node_three_attempts env llm state Hclient)
        by (rewrite Hslice; done).
      destruct (count_tokens _), (llm 0%nat), (llm 1%nat), (llm 2%nat); cbn; lia.
    + unfold summarize_node.
      change (dict_get (message_range_summarized (summary state)) "to" 0)
        with (summarized_to state). rewrite Hslice, Hclient. cbn. lia.
  - intros llm.
    destruct (analysis state) as [a |] eqn:Ha;
      [| unfold answer_node, state_analysis; rewrite Ha; cbn; split; [lia | done]].
    destruct (messages state) as [| m ms] eqn:Hmsgs.
    { unfold answer_node, state_analysis. rewrite Ha, M_bind_ret, Hmsgs.
      cbn. split; [lia | done]. }
    rewrite (answer_node_run env llm state a Ha) by (rewrite Hmsgs; done). cbn zeta.
    destruct (get_groq_client env) as [t [[] | e]]; [| cbn; split; [lia | done]].
    destruct llm as [content | e]; [| cbn; split; [lia | done]].
    destruct (count_tokens _); cbn; split; (lia || done).
  - unfold clarify_node, state_analysis.
    destruct (analysis state) as [a |]; [| done]. by rewrite M_bind_ret.
Qed.

(** X11.  Edge cases of the Answerer and the Clarifier.  On a state without
    the ["analysis"] key both raise [KeyError] before anything else happens.
    On a state with an analysis and no messages the Answerer returns the
    state untouched, without building the client or calling the capability,
    so even a missing credential goes unnoticed. *)
Theorem nodes_on_incomplete_state env (llm : result string) state :
  (analysis state = None →
     answer_node env llm state = ([], Raise (Exn KeyError "'analysis'"))
     ∧ clarify_node state = ([], Raise (Exn KeyError "'analysis'")))
  ∧ (∀ a, analysis state = Some a → messages state = [] →
       answer_node env llm state = ([], Ok state)).
Proof.
  split.
  - intros Hnone. unfold answer_node, clarify_node, state_analysis.
    by rewrite Hnone.
  - intros a Ha Hmsgs. unfold answer_node, state_analysis.
    by rewrite Ha, M_bind_ret, Hmsgs.
Qed.

(** X12.  The slice offered for archiving after a truncation.  After a run
    that summarized [n] messages and kept the last [min n 5], when [extra]
    messages have been appended to the kept ones, the next slice is [extra]
    without its first [n - min n 5] messages: those are never handed to the
    capability, although the range written next covers them. *)
Theorem slice_after_truncation env (key : string)
    (llm : nat → result SessionSummary) state (k : nat) (response : SessionSummary) :
  GROQ_API_KEY env = Some key → key ≠ "" →
  messages_to_summarize state ≠ [] →
  (k < 3)%nat →
  (∀ j, (j < k)%nat → ∃ e, llm j = Raise e) →
  llm k = Ok response →
  ∃ tr state',
    summarize_node env llm state = (tr, Ok state')
    ∧ ∀ extra : list Message,
        messages_to_summarize (set_messages (messages state' ++ extra) state')
        = drop (length (messages state) - length (messages state) `min` 5) extra.
Proof.
  intros Hkey Hkeyne Hslice Hk Hfail Hreply.
  destruct (summarize_node_answered env key llm state k response)
    as (tr & response' & Hrun); [done .. |].
  exists tr, (summarized response' state).
  split; [exact Hrun |].
  intros extra. unfold messages_to_summarize, summarized_to. cbn.
  rewrite slice_from_last5. unfold slice_from.
  set (n := length (messages state)).
  set (kept := drop (n - 5) (messages state)).
  assert (Hkept : length kept = (n `min` 5)%nat).
  { unfold kept. rewrite length_drop. lia. }
  destruct (Z.ltb_spec (Z.of_nat n) 0) as [Hneg | _]; [lia |].
  rewrite length_app, Hkept.
  destruct (Nat.le_gt_cases n ((n `min` 5) + length extra)) as [Hin | Hout].
  - rewrite Z.min_l by lia. rewrite Nat2Z.id.
    rewrite drop_app_ge by lia. by rewrite Hkept.
  - rewrite Z.min_r by lia. rewrite Nat2Z.id.
    rewrite <- Hkept at 1. rewrite <- length_app, drop_all.
    symmetry. apply drop_ge. lia.
Qed.

End NodeEdges.

Lemma summarize_node_all_attempts_fail_sample :
  summarize_node (H := Sample.byte_tokenizer) Sample.with_key
    (λ _, Raise Sample.down) Sample.long_chat
  = ([EvInvoke; EvSleep 500; EvInvoke; EvSleep 1000; EvInvoke], Ok Sample.long_chat).
Proof.
  apply (summarize_node_all_attempts_fail (H := Sample.byte_tokenizer)
           Sample.with_key "gsk_test");
    [reflexivity | discriminate | discriminate | intros k _; by eexists].
Defined.

Lemma call_budget_sample :
  (calls (summarize_node (H := Sample.byte_tokenizer) Sample.with_key
            Sample.second_try Sample.long_chat).1 ≤ 3)%nat
  ∧ calls (summarize_node (H := Sample.byte_tokenizer) Sample.with_key
             Sample.second_try Sample.long_chat).1 = 2%nat.
Proof.
  split; [| reflexivity].
  apply (proj1 (call_budget (H := Sample.byte_tokenizer)
                  Sample.with_key Sample.long_chat)).
Defined.

Lemma nodes_on_incomplete_state_sample :
  answer_node (H := Sample.byte_tokenizer) Sample.without_key (Ok "Hi!")
    (set_messages [] Sample.hello)
  = ([], Ok (set_messages [] Sample.hello)).
Proof.
  by apply (proj2 (nodes_on_incomplete_state (H := Sample.byte_tokenizer)
                     Sample.without_key (Ok "Hi!") (set_messages [] Sample.hello))
              (fallback_analysis "")).
Defined.

Lemma slice_after_truncation_sample :
  ∃ tr state',
    summarize_node (H := Sample.byte_tokenizer) Sample.with_key
      Sample.second_try Sample.long_chat = (tr, Ok state')
    ∧ messages_to_summarize
        (set_messages
           (messages state' ++ [DictMsg "user" "m8"; LcMsg "ai" "m9"; DictMsg "user" "m10"])
           state')
      = [DictMsg "user" "m10"].
Proof.
  destruct (slice_after_truncation (H := Sample.byte_tokenizer)
              Sample.with_key "gsk_test" Sample.second_try Sample.long_chat
              1 Sample.reply eq_refl)
    as (tr & state' & Hrun & Hslice).
  - discriminate.
  - discriminate.
  - lia.
  - intros [| j] Hj; [by eexists | lia].
  - reflexivity.
  - exists tr, state'. split; [exact Hrun |]. by rewrite Hslice.
Defined.

(** The router sends a state to the Clarifier only below the maximum. *)
Lemma should_clarify_counter (state : GraphState) :
  should_clarify state = "clarify" → counter state < 1.
Proof.
  unfold should_clarify, counter, MAX_CLARIFICATION_ATTEMPTS.
  destruct (Z.leb_spec 1 (default 0 (clarification_count state))); [discriminate | done].
Qed.

(** ** Invariants of a routed session *)

Section RoutedSession.
Context `{Tokenizer} {object : BaseModel}.

Lemma count_tokens_nonneg (text : string) (n : Z) :
  count_tokens text = Ok n → 0 ≤ n.
Proof.
  unfold count_tokens. destruct text; [intros [= <-]; lia |].
  destruct (encode _); [intros [= <-]; lia | discriminate].
Qed.

Lemma answer_node_cases (env : Env) (llm : result string) (state : GraphState)
    (tr : list event) (state' : GraphState) :
  answer_node env llm state = (tr, Ok state') →
  (clarification_count state' = clarification_count state
   ∧ current_token_count state' = current_token_count state)
  ∨ (clarification_count state' = Some 0
     ∧ ∃ text n, current_token_count state' = Some n ∧ count_tokens text = Ok n).
Proof.
  destruct (analysis state) as [a |] eqn:Ha;
    [| unfold answer_node, state_analysis; rewrite Ha; discriminate].
  destruct (messages state) as [| m ms] eqn:Hmsgs.
  { unfold answer_node, state_analysis.
    rewrite Ha, M_bind_ret, Hmsgs. intros [= _ <-]. by left. }
  rewrite (answer_node_run env llm state a Ha) by (rewrite Hmsgs; done). cbn zeta.
  destruct (get_groq_client env) as [t [[] | e]]; [| intros [= _ <-]; by left].
  destruct llm as [content | e]; [| intros [= _ <-]; by left].
  destruct (count_tokens _) as [n | e] eqn:Htokens; intros [= _ <-]; [right | by left].
  split; [done |]. by eexists _, _.
Qed.

(** X13.  Along a session that follows the routing, started with the
    counter at 0, the counter is only ever 0 or 2: the Clarifier runs only
    on a counter of 0 and leaves 2, after which the router sends every turn
    to the Answerer until an answered call puts the counter back to 0. *)
Theorem routed_counter_is_zero_or_two (state state' : GraphState) :
  rtc routed_step state state' →
  counter state = 0 ∨ counter state = 2 →
  counter state' = 0 ∨ counter state' = 2.
Proof.
  intros Hrun. induction Hrun as [state | state mid state' Hstep _ IH]; [done |].
  intros Hinv. apply IH. clear IH. unfold counter in *.
  destruct Hstep as [env llm state tr mid Hexec
                    | state tr mid Hroute Hexec
                    | env llm state tr mid Hroute Hexec
                    | env llm state tr mid Hexec
                    | state msgs].
  - by apply analyze_query_node_frame in Hexec as [a ->].
  - apply should_clarify_counter in Hroute.
    unfold clarify_node, state_analysis in Hexec.
    destruct (analysis state) as [a |]; [| discriminate].
    rewrite M_bind_ret in Hexec. injection Hexec as _ <-. cbn.
    unfold counter in Hroute. lia.
  - apply answer_node_cases in Hexec as [[-> _] | [-> _]]; [done | by left].
  - destruct (summarize_node_cases env llm state)
      as [tr' [Hsame | (k & response & _ & _ & Hdone)]];
      rewrite Hexec in *; [by injection Hsame as _ -> |].
    by injection Hdone as _ ->.
  - done.
Qed.

(** X14.  Along the same sessions, a token count that is not negative
    stays so: the nodes only ever write a result of [count_tokens]. *)
Theorem routed_token_count_nonnegative (state state' : GraphState) :
  rtc routed_step state state' →
  0 ≤ token_count state →
  0 ≤ token_count state'.
Proof.
  intros Hrun. induction Hrun as [state | state mid state' Hstep _ IH]; [done |].
  intros Hinv. apply IH. clear IH. unfold token_count in *.
  destruct Hstep as [env llm state tr mid Hexec
                    | state tr mid Hroute Hexec
                    | env llm state tr mid Hroute Hexec
                    | env llm state tr mid Hexec
                    | state msgs].
  - by apply analyze_query_node_frame in Hexec as [a ->].
  - unfold clarify_node, state_analysis in Hexec.
    destruct (analysis state) as [a |]; [| discriminate].
    rewrite M_bind_ret in Hexec. by injection Hexec as _ <-.
  - apply answer_node_cases in Hexec as [[_ ->] | [_ (text & n & -> & Hn)]]; [done |].
    by apply count_tokens_nonneg in Hn.
  - destruct (summarize_node_cases env llm state)
      as [tr' [Hsame | (k & response & _ & _ & Hdone)]];
      rewrite Hexec in *; [by injection Hsame as _ -> |].
    injection Hdone as _ ->. cbn.
    destruct (count_tokens _) as [n | e] eqn:Hn; [| done].
    by apply count_tokens_nonneg in Hn.
  - done.
Qed.

End RoutedSession.

Lemma routed_counter_is_zero_or_two_sample :
  counter {| messages := [DictMsg "assistant" "What does that refer to?"];
             summary := SessionSummary_default;
             analysis := Some Sample.vague;
             current_token_count := Some 0;
             clarification_count := Some 2 |} = 0
  ∨ counter {| messages := [DictMsg "assistant" "What does that refer to?"];
               summary := SessionSummary_default;
               analysis := Some Sample.vague;
               current_token_count := Some 0;
               clarification_count := Some 2 |} = 2.
Proof.
  apply (routed_counter_is_zero_or_two (H := Sample.byte_tokenizer)
           (object := Sample.base_model) Sample.asked);
    [| by left].
  apply rtc_once. by apply (routed_clarify Sample.asked []).
Defined.

Lemma routed_token_count_nonnegative_sample :
  0 ≤ token_count {| messages := [DictMsg "assistant" "Hi!"];
                     summary := SessionSummary_default;
                     analysis := Some (fallback_analysis "");
                     current_token_count := Some 26;
                     clarification_count := Some 0 |}
  ∧ should_clarify Sample.hello = "answer".
Proof.
  split; [| reflexivity].
  apply (routed_token_count_nonnegative (H := Sample.byte_tokenizer)
           (object := Sample.base_model) Sample.hello);
    [| by vm_compute].
  apply rtc_once.
  by apply (routed_answer Sample.with_key (Ok "Hi!") Sample.hello [EvInvoke]).
Defined.

(** ** How the prompts and the token text label messages *)

(** X15.  The conversation text built for the prompts is the token text of
    the same messages once every dict message whose role is not "user" has
    been given the role "unknown": an assistant reply still held as a dict
    appears as "unknown: ..." in the prompts.  The two texts agree when
    every dict message has the role "user" or "unknown". *)
Theorem conversation_lines_relabel (msgs : list Message) :
  conversation_lines msgs = messages_to_text (map relabel msgs)
  ∧ ((∀ role content, DictMsg role content ∈ msgs → role = "user" ∨ role = "unknown") →
     conversation_lines msgs = messages_to_text msgs).
Proof.
  assert (Hrelabel : conversation_lines msgs = messages_to_text (map relabel msgs)).
  { unfold conversation_lines, messages_to_text. f_equal.
    rewrite map_map. apply map_ext. by intros [role content | ty content]. }
  split; [exact Hrelabel |].
  intros Hroles. rewrite Hrelabel. f_equal.
  rewrite <- (map_id msgs) at 2. apply map_ext_in.
  intros [role content | ty content] Hin; [| done].
  apply list_elem_of_In in Hin. cbn.
  by destruct (Hroles role content Hin) as [-> | ->].
Qed.

Lemma conversation_lines_relabel_sample :
  conversation_lines [DictMsg "user" "Hello"; LcMsg "ai" "Hi!"]
  = messages_to_text [DictMsg "user" "Hello"; LcMsg "ai" "Hi!"]
  ∧ conversation_lines [DictMsg "assistant" "Hi!"] = "unknown: Hi!".
Proof.
  split; [| reflexivity].
  apply (proj2 (conversation_lines_relabel [DictMsg "user" "Hello"; LcMsg "ai" "Hi!"])).
  intros role content Hin.
  apply list_elem_of_In in Hin. destruct Hin as [[= <- _] | [[=] | []]]. by left.
Defined.

(** ** utils.py: the memory text *)

Section MemoryText.
Context {object : BaseModel}.







(** X17.  A requested list field with items is rendered as the header, an
    empty line, the field name in title case with underscores turned into
    spaces and a colon, and one line per item indented by two spaces and a
    dash; the five memory fields are titled "User Profile", "Key Facts",
    "Decisions", "Open Questions" and "Todos". *)
Theorem format_summary_for_prompt_list_field
    (summary : SessionSummary) (field : string) (items : list string) :
  getattr_summary summary field = Some (VList items) →
  items ≠ [] →
  format_summary_for_prompt summary [field]
  = join NL ("=== SESSION MEMORY ==="
               :: (NL +:+ title (replace_underscore field) +:+ ":")
               :: map (λ item, "  - " +:+ item) items)
  ∧ map (λ f, title (replace_underscore f))
      ["user_profile"; "key_facts"; "decisions"; "open_questions"; "todos"]
    = ["User Profile"; "Key Facts"; "Decisions"; "Open Questions"; "Todos"].
Proof.
  intros Hfield Hitems. split; [| reflexivity].
  unfold format_summary_for_prompt. cbn [foldl]. unfold field_sections.
  rewrite Hfield. by destruct items.
Qed.

End MemoryText.


Lemma format_summary_for_prompt_list_field_sample :
  format_summary_for_prompt (object := Sample.base_model)
    {| user_profile := []; key_facts := ["User likes coffee"]; decisions := [];
       open_questions := []; todos := [];
       message_range_summarized := [("from", 0); ("to", 0)] |}
    ["key_facts"]
  = "=== SESSION MEMORY ===" +:+ NL +:+ NL +:+ "Key Facts:" +:+ NL
    +:+ "  - User likes coffee".
Proof.
  destruct (format_summary_for_prompt_list_field (object := Sample.base_model)
              {| user_profile := []; key_facts := ["User likes coffee"];
                 decisions := []; open_questions := []; todos := [];
                 message_range_summarized := [("from", 0); ("to", 0)] |}
              "key_facts" ["User likes coffee"] eq_refl) as [Htext _];
    [discriminate |].
  rewrite Htext. reflexivity.
Defined.

(** ** app.py: the notice for an exception *)

Lemma starts_with_spec (p s : string) :
  starts_with p s = true ↔ ∃ post, s = p +:+ post.
Proof.
  revert s. induction p as [| a p IH]; intros s; cbn.
  - split; [intros _; by exists s | done].
  - destruct s as [| b s].
    + split; [done | intros [post Hpost]; discriminate].
    + rewrite andb_true_iff, IH. split.
      * intros [Hab [post ->]]. apply Ascii.eqb_eq in Hab as ->. by exists post.
      * intros [post Hpost].
        change (String b s = String a (p +:+ post)) in Hpost.
        injection Hpost as -> ->. split; [apply Ascii.eqb_refl | by exists post].
Qed.

Lemma contains_spec (needle s : string) :
  contains needle s = true ↔ ∃ pre post, s = pre +:+ needle +:+ post.
Proof.
  induction s as [| c s IH]; cbn [contains]; rewrite orb_true_iff, starts_with_spec.
  - split.
    + intros [[post Hpost] | Hfalse]; [by exists "", post | done].
    + intros (pre & post & Heq). left.
      destruct pre as [| c pre]; [by exists post | discriminate].
  - rewrite IH. split.
    + intros [[post Hpost] | (pre & post & ->)]; [by exists "", post |].
      by exists (String c pre), post.
    + intros (pre & post & Heq). destruct pre as [| c' pre].
      * left. by exists post.
      * right. change (String c s = String c' (pre +:+ needle +:+ post)) in Heq.
        injection Heq as -> ->. by exists pre, post.
Qed.

(** X18.  What [invoke_graph] shows for an exception.  For a [ValueError]
    (the validation error of the schema included) only the message decides,
    case-sensitively: the API-key notice exactly when it contains
    "GROQ_API_KEY", else the configuration notice with the message; numbers
    or words in it never make it a rate-limit, authentication or connection
    notice.  For any other exception the lower-cased message decides, in
    this order: "rate_limit" or "429" give the rate-limit notice whatever
    else the message holds, and the API-key and configuration notices are
    never shown. *)
Theorem invoke_graph_except_classifies (e : exn) :
  (is_ValueError e = true →
     (invoke_graph_except e = ApiKeyError ↔
        ∃ pre post, exn_msg e = pre +:+ "GROQ_API_KEY" +:+ post)
     ∧ (invoke_graph_except e = ApiKeyError
        ∨ invoke_graph_except e = ConfigurationError (exn_msg e)))
  ∧ (is_ValueError e = false →
     (invoke_graph_except e = RateLimitReached ↔
        (∃ pre post, lower (exn_msg e) = pre +:+ "rate_limit" +:+ post)
        ∨ (∃ pre post, lower (exn_msg e) = pre +:+ "429" +:+ post))
     ∧ invoke_graph_except e ≠ ApiKeyError
     ∧ ∀ msg, invoke_graph_except e ≠ ConfigurationError msg).
Proof.
  unfold invoke_graph_except. split; intros ->.
  - rewrite <- contains_spec.
    destruct (contains "GROQ_API_KEY" (exn_msg e)); split; auto; by split.
  - rewrite <- !contains_spec, <- orb_true_iff.
    destruct (contains "rate_limit" (lower (exn_msg e))
              || contains "429" (lower (exn_msg e))); [by repeat split |].
    destruct (_ || _); [by repeat split |].
    destruct (_ || _); by repeat split.
Qed.

Lemma invoke_graph_except_classifies_sample :
  invoke_graph_except (Exn RuntimeError "Error code: 429 - Unauthorized, connection closed")
  = RateLimitReached
  ∧ invoke_graph_except (Exn ValueError "HTTP 429 rate_limit")
    = ConfigurationError "HTTP 429 rate_limit".
Proof.
  split; [| reflexivity].
  apply (proj2 (invoke_graph_except_classifies
                  (Exn RuntimeError "Error code: 429 - Unauthorized, connection closed"))
           eq_refl).
  right. by exists "error code: ", " - unauthorized, connection closed".
Defined.

Section ApiKeyNotice.
Context {object : BaseModel}.

(** X19.  The error of [get_groq_client] is the one [invoke_graph] would
    show as the API-key notice, but no exception that a node lets out is
    shown so: the Summarizer raises nothing, the Analyzer only the
    validation error of its empty-message branch, the Answerer and the
    Clarifier only the [KeyError] of a state without analysis. *)
Theorem api_key_notice_unreachable `{Tokenizer}
    (env : Env) (state : GraphState) (tr : list event) (e : exn) :
  (∀ e0, get_groq_client env = raise e0 → invoke_graph_except e0 = ApiKeyError)
  ∧ ((∃ llm, analyze_query_node env llm state = (tr, Raise e))
     ∨ (∃ llm, summarize_node env llm state = (tr, Raise e))
     ∨ (∃ llm, answer_node env llm state = (tr, Raise e))
     ∨ clarify_node state = (tr, Raise e) →
     invoke_graph_except e ≠ ApiKeyError).
Proof.
  split.
  - intros e0. unfold get_groq_client.
    destruct (GROQ_API_KEY env) as [[| c key] |]; by intros [= <-].
  - intros [[llm Hrun] | [[llm Hrun] | [[llm Hrun] | Hrun]]].
    + destruct (messages state) as [| m ms] eqn:Hmsgs.
      * unfold analyze_query_node in Hrun. rewrite Hmsgs in Hrun.
        by injection Hrun as _ <-.
      * destruct (analyze_query_node_total env llm state) as (tr' & a & Hok);
          [by rewrite Hmsgs | congruence].
    + destruct (summarize_node_cases env llm state)
        as [tr' [Hsame | (k & response & _ & _ & Hdone)]]; congruence.
    + revert Hrun.
      destruct (analysis state) as [a |] eqn:Ha;
        [| unfold answer_node, state_analysis; rewrite Ha; by intros [= _ <-]].
      destruct (messages state) as [| m ms] eqn:Hmsgs.
      { unfold answer_node, state_analysis. by rewrite Ha, M_bind_ret, Hmsgs. }
      rewrite (answer_node_run env llm state a Ha) by (rewrite Hmsgs; done). cbn zeta.
      destruct (get_groq_client env) as [t [[] | e']]; [| discriminate].
      destruct llm as [content | e']; [| discriminate].
      by destruct (count_tokens _).
    + revert Hrun. unfold clarify_node, state_analysis.
      destruct (analysis state) as [a |]; [| by intros [= _ <-]].
      by rewrite M_bind_ret.
Qed.

End ApiKeyNotice.

Lemma api_key_notice_unreachable_sample :
  invoke_graph_except (Exn ValueError "GROQ_API_KEY environment variable not set")
  = ApiKeyError
  ∧ invoke_graph_except (Exn KeyError "'analysis'") = OtherError "'analysis'".
Proof.
  split; [| reflexivity].
  by apply (proj1 (api_key_notice_unreachable (H := Sample.byte_tokenizer)
                     (object := Sample.base_model)
                     Sample.without_key Sample.hello []
                     (Exn KeyError "'analysis'"))).
Defined.

(** ** utils.py: the test data *)

Section TestDataFacts.
Context {J : Type} `{JsonParser J}.

Lemma load_lines_result_shift (n m : nat) (lines : list text) :
  (load_lines n lines).2 = (load_lines m lines).2.
Proof.
  revert n m. induction lines as [| line lines IH]; intros n m; [done |].
  cbn [load_lines]. specialize (IH (S n) (S m)).
  destruct (strip line) as [| c l]; [done |].
  destruct (json_loads (c :: l)) as [case | | e]; [| | done].
  - destruct (load_lines (S n) lines) as [w1 r1].
    destruct (load_lines (S m) lines) as [w2 r2]. cbn in *. by subst.
  - destruct (load_lines (S n) lines) as [w1 r1].
    destruct (load_lines (S m) lines) as [w2 r2]. done.
Qed.

Lemma load_lines_skip (n : nat) (before after : list text) (bad : text) :
  strip bad = [] ∨ json_loads (strip bad) = JSONDecodeError →
  (load_lines n (before ++ bad :: after)).2 = (load_lines n (before ++ after)).2.
Proof.
  intros Hbad. revert n. induction before as [| line before IH]; intros n.
  - cbn [app load_lines].
    rewrite (load_lines_result_shift n (S n) after).
    destruct Hbad as [-> | Hrejected]; [done |].
    destruct (strip bad) as [| c l]; [done |]. rewrite Hrejected.
    by destruct (load_lines (S n) after).
  - cbn [app load_lines]. specialize (IH (S n)).
    destruct (strip line) as [| c l]; [done |].
    destruct (json_loads (c :: l)) as [case | | e]; [| | done].
    + destruct (load_lines (S n) (before ++ bad :: after)) as [w1 r1].
      destruct (load_lines (S n) (before ++ after)) as [w2 r2]. cbn in *. by subst.
    + destruct (load_lines (S n) (before ++ bad :: after)) as [w1 r1].
      destruct (load_lines (S n) (before ++ after)) as [w2 r2]. done.
Qed.

(** The numbers of the rejected lines when the first line has number [n]. *)
Lemma load_lines_returns (n : nat) (lines : list text) :
  (∀ line e, line ∈ lines → json_loads (strip line) = Uncaught e → strip line = []) →
  load_lines n lines
  = (omap (λ numbered : nat * text,
             match strip numbered.2 with
             | [] => None
             | line =>
                 match json_loads line with
                 | JSONDecodeError => Some numbered.1
                 | Parsed _ | Uncaught _ => None
                 end
             end)
          (zip (seq n (length lines)) lines),
     Ok (parsed_lines lines)).
Proof.
  revert n. induction lines as [| line lines IH]; intros n Hcaught; [done |].
  cbn [load_lines length seq zip zip_with omap parsed_lines list_omap fst snd].
  rewrite (IH (S n)) by (intros l e Hin; apply Hcaught; by right).
  pose proof (Hcaught line) as Hline.
  destruct (strip line) as [| c l]; [done |].
  destruct (json_loads (c :: l)) as [case | | e]; [done | done |].
  by specialize (Hline e ltac:(left) eq_refl).
Qed.

Lemma rejected_lines_app (lines more : list text) :
  rejected_lines (lines ++ more)
  = rejected_lines lines
    ++ omap (λ numbered : nat * text,
               match strip numbered.2 with
               | [] => None
               | line =>
                   match json_loads line with
                   | JSONDecodeError => Some numbered.1
                   | Parsed _ | Uncaught _ => None
                   end
               end)
            (zip (seq (1 + length lines) (length more)) more).
Proof.
  unfold rejected_lines. generalize 1%nat as n.
  induction lines as [| line lines IH]; intros n.
  { cbn. by rewrite Nat.add_0_r. }
  cbn [app length seq zip zip_with omap list_omap fst snd].
  rewrite (IH (S n)). replace (S n + length lines)%nat with (n + S (length lines))%nat by lia.
  by destruct (strip line) as [| c l]; [| destruct (json_loads (c :: l))].
Qed.

Lemma rejected_from_bounds (n : nat) (lines : list text) :
  Forall (λ w, (n ≤ w < n + length lines)%nat)
    (omap (λ numbered : nat * text,
             match strip numbered.2 with
             | [] => None
             | line =>
                 match json_loads line with
                 | JSONDecodeError => Some numbered.1
                 | Parsed _ | Uncaught _ => None
                 end
             end)
          (zip (seq n (length lines)) lines)).
Proof.
  revert n. induction lines as [| line lines IH]; intros n; [constructor |].
  cbn [length seq zip zip_with omap list_omap fst snd].
  assert (Hrest : Forall (λ w, (n ≤ w < n + S (length lines))%nat)
            (omap (λ numbered : nat * text,
                     match strip numbered.2 with
                     | [] => None
                     | line =>
                         match json_loads line with
                         | JSONDecodeError => Some numbered.1
                         | Parsed _ | Uncaught _ => None
                         end
                     end)
                  (zip (seq (S n) (length lines)) lines))).
  { eapply Forall_impl; [apply (IH (S n)) |]. cbn. intros; lia. }
  destruct (strip line) as [| c l]; [done |].
  destruct (json_loads (c :: l)); [done | | done].
  constructor; [lia | done].
Qed.

(** X20.  Loading the test data skips what it cannot use.  A line that is
    blank once stripped (of every character [str.isspace] holds of, the
    no-break space among them) or that the parser rejects with a
    [json.JSONDecodeError] leaves the outcome as it is without the line.
    When no line makes the parser raise anything else, the function
    returns the values of the accepted lines in file order, and warns
    exactly about the rejected lines that are not blank, in file order and
    by their 1-based numbers; the number of the skipped line is among them
    exactly when the line is not blank. *)
Theorem load_test_data_skips_bad_lines (before after : list text) (bad : text) :
  strip bad = [] ∨ json_loads (strip bad) = JSONDecodeError →
  (load_test_data (before ++ bad :: after)).2 = (load_test_data (before ++ after)).2
  ∧ ((∀ line e, line ∈ before ++ after →
        json_loads (strip line) = Uncaught e → strip line = []) →
     load_test_data (before ++ bad :: after)
     = (rejected_lines (before ++ bad :: after), Ok (parsed_lines (before ++ after))))
  ∧ (S (length before) ∈ rejected_lines (before ++ bad :: after) ↔ strip bad ≠ []).
Proof.
  intros Hbad. split; [by apply load_lines_skip | split].
  - intros Hcaught. unfold load_test_data.
    rewrite load_lines_returns.
    + unfold rejected_lines. f_equal. f_equal. unfold parsed_lines.
      rewrite !omap_app. f_equal. cbn [omap list_omap].
      destruct Hbad as [-> | Hrejected]; [done |].
      destruct (strip bad) as [| c l]; [done |]. by rewrite Hrejected.
    + intros line e Hin Hraise.
      apply elem_of_app in Hin as [Hin | Hin].
      * apply (Hcaught line e); [| done]. apply elem_of_app. by left.
      * apply elem_of_cons in Hin as [-> | Hin].
        -- destruct Hbad as [Hblank | Hrejected]; [done | congruence].
        -- apply (Hcaught line e); [| done]. apply elem_of_app. by right.
  - rewrite rejected_lines_app.
    cbn [length seq zip zip_with omap list_omap fst snd].
    pose proof (rejected_from_bounds 1 before) as Hbefore.
    pose proof (rejected_from_bounds (S (1 + length before)) after) as Hafter.
    rewrite Forall_forall in Hbefore, Hafter.
    fold (rejected_lines before) in Hbefore.
    split.
    + intros Hin Hblank. rewrite Hblank in Hin.
      apply elem_of_app in Hin as [Hin | Hin].
      * apply Hbefore in Hin. lia.
      * apply Hafter in Hin. lia.
    + intros Hnonblank. apply elem_of_app. right.
      destruct Hbad as [Hblank | Hrejected]; [done |].
      destruct (strip bad) as [| c l]; [done |]. rewrite Hrejected. by left.
Qed.

End TestDataFacts.

Lemma load_test_data_skips_bad_lines_sample :
  load_test_data (H := empty_object_parser)
    [code_points "{}" ++ [10%N];
     code_points "not json" ++ [10%N];
     [160%N] ++ code_points "{}" ++ [160%N; 10%N]]
  = ([2%nat], Ok [tt; tt]).
Proof.
  etrans; [| reflexivity].
  apply (proj1 (proj2 (load_test_data_skips_bad_lines
                         (H := empty_object_parser)
                         [code_points "{}" ++ [10%N]]
                         [[160%N] ++ code_points "{}" ++ [160%N; 10%N]]
                         (code_points "not json" ++ [10%N])
                         ltac:(right; reflexivity)))).
  intros line e _. unfold json_loads, empty_object_parser.
  by repeat case_match.
Defined.

(** ** How the nodes and the routers compose *)

Section Composition.
Context `{Tokenizer} {object : BaseModel}.

(** X21.  What an Answerer run does to the clarification budget.  When the
    call is answered and the tokenizer accepts the conversation text with
    the reply, the next turn is routed by ambiguity alone again: an
    ambiguous analysis goes to the Clarifier whatever the counter was.  When
    the client cannot be built, the call raises, or the tokenizer refuses
    the text after an answered call, a spent budget stays spent: with the
    counter at 1 or more the next turn still goes to the Answerer, however
    ambiguous. *)
Theorem answer_then_route (env : Env) (llm : result string) (state : GraphState)
    (tr : list event) (state' : GraphState) (next_analysis : QueryAnalysis) :
  messages state ≠ [] →
  answer_node env llm state = (tr, Ok state') →
  is_ambiguous next_analysis = true →
  ((∃ content n,
      calls tr = 1%nat ∧ llm = Ok content
      ∧ count_tokens (messages_to_text (messages state)
                      +:+ NL +:+ "assistant: " +:+ content) = Ok n) →
     clarification_count state' = Some 0
     ∧ should_clarify (set_analysis next_analysis state') = "clarify")
  ∧ (calls tr = 0%nat
     ∨ (∃ e, llm = Raise e)
     ∨ (∃ content e,
          llm = Ok content
          ∧ count_tokens (messages_to_text (messages state)
                          +:+ NL +:+ "assistant: " +:+ content) = Raise e) →
     1 ≤ counter state →
     clarification_count state' = clarification_count state
     ∧ should_clarify (set_analysis next_analysis state') = "answer").
Proof.
  intros Hne Hrun Hamb. revert Hrun.
  destruct (analysis state) as [a |] eqn:Ha;
    [| unfold answer_node, state_analysis; by rewrite Ha].
  rewrite (answer_node_run env llm state a Ha Hne). cbn zeta.
  assert (Hspent : ∀ st : GraphState,
            clarification_count st = clarification_count state →
            1 ≤ counter state →
            clarification_count st = clarification_count state
            ∧ should_clarify (set_analysis next_analysis st) = "answer").
  { intros st Hst Hone. split; [done |].
    unfold should_clarify, counter in *. cbn. rewrite Hst.
    destruct (Z.leb_spec MAX_CLARIFICATION_ATTEMPTS
                (default 0 (clarification_count state))) as [_ | Hlt]; [done |].
    unfold MAX_CLARIFICATION_ATTEMPTS in Hlt. lia. }
  destruct (get_groq_client env) as [t [[] | e0]].
  - destruct llm as [content | e0].
    + destruct (count_tokens _) as [n | e0] eqn:Hcount; intros [= <- <-]; split.
      * intros _. split; [done |]. unfold should_clarify. cbn. by rewrite Hamb.
      * intros [Hcalls | [[e He] | (content' & e & [= <-] & He)]];
          [discriminate | discriminate |].
        rewrite Hcount in He. discriminate.
      * intros (content' & n & _ & [= <-] & Hn). rewrite Hcount in Hn. discriminate.
      * intros _. by apply Hspent.
    + intros [= <- <-]; split.
      * intros (content & n & _ & Hllm & _). discriminate.
      * intros _. by apply Hspent.
  - intros [= <- <-]; split.
    + intros (content & n & Hcalls & _). discriminate.
    + intros _. by apply Hspent.
Qed.

(** X22.  A degraded analysis always leads to the Answerer.  With at least
    one message, when the credential is missing or each of the three
    attempts fails, the Analyzer returns a state that [should_clarify]
    routes to the Answerer, whatever the counter is. *)
Theorem degraded_analysis_routes_to_answer
    (env : Env) (llm : nat → result QueryAnalysisArgs) (state : GraphState) :
  messages state ≠ [] →
  get_groq_client env
  = raise (Exn ValueError "GROQ_API_KEY environment variable not set")
  ∨ (∃ key : string, GROQ_API_KEY env = Some key ∧ key ≠ ""
       ∧ ∀ k, (k < 3)%nat → attempt_fails (llm k)) →
  ∃ tr state',
    analyze_query_node env llm state = (tr, Ok state')
    ∧ analysis state' = Some (fallback_analysis (latest_text state))
    ∧ should_clarify state' = "answer".
Proof.
  intros Hne Hdegraded.
  assert (Hroute : should_clarify
            (set_analysis (fallback_analysis (latest_text state)) state) = "answer").
  { unfold should_clarify. cbn. by destruct (_ <=? _). }
  rewrite analyze_query_node_unfold by done.
  destruct Hdegraded as [-> | (key & Hkey & Hkeyne & Hfail)].
  - cbn. by eexists _, _.
  - rewrite (get_groq_client_ok env key) by done. rewrite M_bind_ret.
    set (body := λ attempt, bind (invoke_analysis (llm attempt)) _).
    destruct (retry_loop_all_fail 3 body 2 0) as [e He]; [reflexivity | |].
    + intros j Hj. unfold body. apply analyzer_body_fails, Hfail. lia.
    + rewrite He. cbn. by eexists _, _.
Qed.

End Composition.

Lemma answer_then_route_sample :
  clarification_count
    {| messages := [DictMsg "assistant" "Hi!"];
       summary := SessionSummary_default;
       analysis := Some Sample.vague;
       current_token_count := Some 26;
       clarification_count := Some 0 |} = Some 0
  ∧ should_clarify
      (set_analysis Sample.vague
         {| messages := [DictMsg "assistant" "Hi!"];
            summary := SessionSummary_default;
            analysis := Some Sample.vague;
            current_token_count := Some 26;
            clarification_count := Some 0 |}) = "clarify".
Proof.
  apply (proj1 (answer_then_route (H := Sample.byte_tokenizer)
                  Sample.with_key (Ok "Hi!")
                  {| messages := [DictMsg "user" "Hello"];
                     summary := SessionSummary_default;
                     analysis := Some Sample.vague;
                     current_token_count := Some 0;
                     clarification_count := Some 2 |}
                  [EvInvoke] _ Sample.vague
                  ltac:(discriminate) eq_refl eq_refl)).
  exists "Hi!", 26. split; [reflexivity | split; reflexivity].
Defined.

Lemma degraded_analysis_routes_to_answer_sample :
  ∃ tr state',
    analyze_query_node (object := Sample.base_model)
      Sample.without_key (λ _, Ok Sample.names) Sample.asked
    = (tr, Ok state')
    ∧ analysis state' = Some (fallback_analysis "What about that?")
    ∧ should_clarify state' = "answer".
Proof.
  apply (degraded_analysis_routes_to_answer (object := Sample.base_model)
           Sample.without_key (λ _, Ok Sample.names) Sample.asked);
    [discriminate | by left].
Defined.
